(** * ipa-resign-app: the request handlers of [server.js]

    A shallow embedding of the Express application in [src/server.js]:
    the multipart intake configured at lines 44-70, the signing handler
    (lines 73-161), the manifest generator (164-202), the artifact listing
    (205-225) and the artifact deletion (228-242).

    The handlers are sequential glue around a file system and an external
    process, so the embedding is a state-and-exception monad over a small
    world: a file system keyed by absolute paths, a counter into the stream
    of generated session identifiers, and the log of executed commands. *)

From stdpp Require Import base strings list gmap sorting pretty.
From Stdlib Require Import Ascii ZArith Lia.

#[local] Set Warnings "-clear-no-such-hyp".

Local Open Scope Z_scope.

(** ** Strings *)

Module Str.

(** [s.endsWith(suffix)] *)
Definition endsWith (s suffix : string) : bool :=
  bool_decide (String.list_ascii_of_string suffix
               `suffix_of` String.list_ascii_of_string s).

(** ASCII part of [s.toLowerCase()]; bytes outside [A-Z] are kept. *)
Definition lower_ascii (c : ascii) : ascii :=
  let n := Ascii.nat_of_ascii c in
  if bool_decide (65 ≤ n ≤ 90)%nat then Ascii.ascii_of_nat (n + 32) else c.

Fixpoint toLowerCase (s : string) : string :=
  match s with
  | EmptyString => EmptyString
  | String c r => String (lower_ascii c) (toLowerCase r)
  end.

(** [parts.join(sep)] *)
Fixpoint join (sep : string) (parts : list string) : string :=
  match parts with
  | [] => ""
  | [p] => p
  | p :: rest => p +:+ sep +:+ join sep rest
  end.

(** A JavaScript string is truthy when it is not empty; an absent
    property ([undefined]) is falsy. *)
Definition truthy (v : option string) : bool :=
  match v with
  | Some s => negb (bool_decide (s = ""))
  | None => false
  end.

(** [a || b] on a string and a fallback. *)
Definition or_else (a b : string) : string :=
  if bool_decide (a = "") then b else a.

Definition mem (c : ascii) (s : string) : Prop :=
  c ∈ String.list_ascii_of_string s.

#[global] Instance mem_dec c s : Decision (mem c s).
Proof. unfold mem. apply _. Defined.

End Str.

(** ** Paths (Node's [path] module, POSIX flavour)

    A path value is kept in the normal form Node's [path.join] produces for
    an absolute base: the list of its components from the root.  [show]
    renders it where the source interpolates a path into a string. *)

Module Path.

Definition t := list string.

(** Segments of a string between ["/"] separators. *)
Fixpoint split_slash (s : string) : list string :=
  match s with
  | EmptyString => [""]
  | String c r =>
      if Ascii.eqb c "/" then "" :: split_slash r
      else match split_slash r with
           | seg :: segs => String c seg :: segs
           | [] => [String c ""]
           end
  end.

(** One step of normalisation: empty and ["."] segments vanish, [".."]
    pops a component (and stays at the root), anything else descends. *)
Definition step (p : t) (seg : string) : t :=
  if bool_decide (seg = "" ∨ seg = ".") then p
  else if bool_decide (seg = "..") then removelast p
  else p ++ [seg].

(** [path.join(dir, s)] for an absolute normalised [dir].  A trailing
    separator of [s], which Node keeps in the result, is not kept. *)
Definition join (dir : t) (s : string) : t :=
  foldl step dir (split_slash s).

(** [path.dirname(p)] *)
Definition dirname (p : t) : t := removelast p.

Definition show (p : t) : string :=
  match p with
  | [] => "/"
  | _ => String.concat "" (map (λ c, "/" +:+ c) p)
  end.

(** [path.basename(s)]: the last non-empty segment. *)
Definition basename (s : string) : string :=
  default "" (last (filter (λ seg, seg ≠ "") (split_slash s))).

(** Splits a base name at its last dot: [(before, from the dot on)]. *)
Fixpoint split_last_dot (s : string) : option (string * string) :=
  match s with
  | EmptyString => None
  | String c r =>
      match split_last_dot r with
      | Some (a, e) => Some (String c a, e)
      | None => if Ascii.eqb c "." then Some ("", s) else None
      end
  end.

(** [(name, ext)] of a base name as [path.parse] and [path.extname]
    compute them: there is no extension when the base has no dot, when
    its last dot is its first character, or when the base is [".."]. *)
Definition name_ext (base : string) : string * string :=
  match split_last_dot base with
  | Some (a, e) =>
      if bool_decide (a = "" ∨ base = "..") then (base, "") else (a, e)
  | None => (base, "")
  end.

(** [path.parse(s).name] *)
Definition parse_name (s : string) : string := (name_ext (basename s)).1.

(** [path.extname(s)] *)
Definition extname (s : string) : string := (name_ext (basename s)).2.

(** A single directory-entry name. *)
Definition component (n : string) : Prop :=
  n ≠ "" ∧ n ≠ "." ∧ n ≠ ".." ∧ ¬ Str.mem "/" n.

#[global] Instance component_dec n : Decision (component n).
Proof. unfold component. apply _. Defined.

End Path.

(** ** The file system

    Entries are keyed by their absolute path.  [fs.statSync] reports a size
    and a creation time for files and directories alike. *)

Inductive kind := RegularFile | Directory.

Record node := Node { node_kind : kind; node_size : N; node_birthtime : Z }.

#[global] Instance kind_eq_dec : EqDecision kind.
Proof. solve_decision. Defined.

#[global] Instance node_eq_dec : EqDecision node.
Proof. solve_decision. Defined.

Abbreviation FS := (gmap (list string) node).

Module Fs.

(** Every path of the file system is made of directory-entry names. *)
Definition wf (fs : FS) : Prop :=
  ∀ p, is_Some (fs !! p) → Forall Path.component p.

Definition is_dir (fs : FS) (p : Path.t) : Prop :=
  ∃ n, fs !! p = Some n ∧ node_kind n = Directory.

Definition is_file (fs : FS) (p : Path.t) : Prop :=
  ∃ n, fs !! p = Some n ∧ node_kind n = RegularFile.

Definition is_fileb (fs : FS) (p : Path.t) : bool :=
  match fs !! p with
  | Some (Node RegularFile _ _) => true
  | _ => false
  end.

(** The paths [fs.rmSync(d, {recursive: true})] removes. *)
Definition under (d p : Path.t) : Prop := d `prefix_of` p.

#[global] Instance under_dec d p : Decision (under d p).
Proof. unfold under. apply _. Defined.

Definition rm_rf (d : Path.t) (fs : FS) : FS :=
  filter (λ kv, ¬ under d kv.1) fs.

(** The entry name of [p] when [p] is a direct child of [d]. *)
Definition child_name (d p : Path.t) : option string :=
  if bool_decide (length p = S (length d) ∧ d `prefix_of` p) then last p
  else None.

Definition children (d : Path.t) (fs : FS) : list string :=
  omap (λ kv, child_name d kv.1) (map_to_list fs).

(** The ancestors of [p] from the root down, [p] last. *)
Definition ancestors (p : Path.t) : list Path.t :=
  map (λ i, take i p) (seq 0 (S (length p))).

Definition mkdir_p (now : Z) (p : Path.t) (fs : FS) : FS :=
  foldl (λ acc q, match acc !! q with
                  | Some _ => acc
                  | None => <[q := Node Directory 0 now]> acc
                  end) fs (ancestors p).

End Fs.

(** ** The world and the handler monad *)

Record World := mkWorld {
  w_fs : FS;                 (* the disk *)
  w_uuid : nat;              (* how many identifiers [uuidv4] has handed out *)
  w_execs : list string      (* the commands given to [exec], oldest first *)
}.

Inductive result (A : Type) :=
| Ok (a : A)
| Throw (message : string).
Arguments Ok {A} a.
Arguments Throw {A} message.

Definition M (A : Type) : Type := World → result A * World.

#[global] Instance M_ret : MRet M := λ A a w, (Ok a, w).

Definition throw {A} (message : string) : M A := λ w, (Throw message, w).

#[global] Instance M_bind : MBind M := λ A B k m w,
  match m w with
  | (Ok a, w') => k a w'
  | (Throw e, w') => (Throw e, w')
  end.

#[global] Instance M_fmap : FMap M := λ A B f m w,
  match m w with
  | (Ok a, w') => (Ok (f a), w')
  | (Throw e, w') => (Throw e, w')
  end.

(** [try { m } catch (error) { h(error.message) }] *)
Definition try_catch {A} (m : M A) (h : string → M A) : M A :=
  λ w, match m w with
       | (Ok a, w') => (Ok a, w')
       | (Throw e, w') => h e w'
       end.

Definition get_fs : M FS := λ w, (Ok (w_fs w), w).

Definition set_fs (fs : FS) : M unit :=
  λ w, (Ok tt, mkWorld fs (w_uuid w) (w_execs w)).

(** [cond && body] as a statement. *)
Definition when (b : bool) (m : M unit) : M unit := if b then m else mret tt.

(** [xs.forEach(f)] *)
Fixpoint forEach {A} (xs : list A) (f : A → M unit) : M unit :=
  match xs with
  | [] => mret tt
  | x :: rest => f x;; forEach rest f
  end.

Definition existsSync (p : Path.t) : M bool :=
  fs ← get_fs; mret (bool_decide (is_Some (fs !! p))).

(** [fs.unlinkSync(p)] removes a regular file and throws on anything else. *)
Definition unlinkSync (p : Path.t) : M unit :=
  fs ← get_fs;
  match fs !! p with
  | Some (Node RegularFile _ _) => set_fs (delete p fs)
  | Some (Node Directory _ _) =>
      throw ("EISDIR: illegal operation on a directory, unlink '" +:+ Path.show p +:+ "'")
  | None =>
      throw ("ENOENT: no such file or directory, unlink '" +:+ Path.show p +:+ "'")
  end.

(** [fs.rmSync(p, { recursive: true, force: true })] *)
Definition rmSync_rf (p : Path.t) : M unit :=
  fs ← get_fs; set_fs (Fs.rm_rf p fs).

Definition statSync (p : Path.t) : M node :=
  fs ← get_fs;
  match fs !! p with
  | Some n => mret n
  | None => throw ("ENOENT: no such file or directory, stat '" +:+ Path.show p +:+ "'")
  end.

Definition readdirSync (d : Path.t) : M (list string) :=
  fs ← get_fs;
  match fs !! d with
  | Some (Node Directory _ _) => mret (Fs.children d fs)
  | Some (Node RegularFile _ _) =>
      throw ("ENOTDIR: not a directory, scandir '" +:+ Path.show d +:+ "'")
  | None =>
      throw ("ENOENT: no such file or directory, scandir '" +:+ Path.show d +:+ "'")
  end.

(** [fs.mkdirSync(p, { recursive: true })] *)
Definition mkdirSync_p (now : Z) (p : Path.t) : M unit :=
  fs ← get_fs;
  if existsb (Fs.is_fileb fs) (Fs.ancestors p)
  then throw ("ENOTDIR: not a directory, mkdir '" +:+ Path.show p +:+ "'")
  else set_fs (Fs.mkdir_p now p fs).

(** ** HTTP values *)

Unset Elimination Schemes.
Inductive json :=
| JBool (b : bool)
| JNum (n : Z)
| JStr (s : string)
| JDate (ms : Z)
| JArr (items : list json)
| JObj (fields : list (string * json)).
Set Elimination Schemes.

Inductive payload :=
| Json (j : json)       (* [res.json(j)] *)
| Sent (text : string). (* [res.send(text)] *)

Record response := mkResponse {
  status : nat;
  content_type : string;
  res_body : payload
}.

(** [res.status(code).json(j)] *)
Definition res_json (code : nat) (j : json) : response :=
  mkResponse code "application/json" (Json j).

(** One file stored by the upload middleware, as the handler sees it. *)
Record UploadedFile := mkFile {
  fieldname : string;
  originalname : string;
  file_path : Path.t;
  file_size : N
}.

(** [req.body] holds the text fields, [req.files] the stored files by field
    name; [req.files] is [undefined] when the request was not multipart. *)
Record Request := mkRequest {
  req_body : gmap string string;
  req_files : option (gmap string (list UploadedFile))
}.

(** What [exec] hands to its callback. *)
Record ExecResult := mkExec {
  exec_error : option string;   (* [error.message], [null] on exit status 0 *)
  exec_stdout : string;
  exec_stderr : string
}.

(** The constants of lines 11-18, after the environment has been read. *)
Record Config := mkConfig {
  DOMAIN : string;
  ZSIGN_PATH : string;
  UPLOAD_DIR : Path.t;
  OUTPUT_DIR : Path.t
}.

(** ** [encodeURIComponent]

    Strings are sequences of UTF-8 bytes; every byte outside the unreserved
    set becomes a percent escape with upper-case hexadecimal digits. *)

Module Uri.

Definition unreserved (c : ascii) : bool :=
  let n := Ascii.nat_of_ascii c in
  bool_decide ((65 ≤ n ≤ 90) ∨ (97 ≤ n ≤ 122) ∨ (48 ≤ n ≤ 57))%nat
  || bool_decide (c ∈ String.list_ascii_of_string "-_.!~*'()").

Definition hex_digit (n : nat) : ascii :=
  default "0"%char (String.list_ascii_of_string "0123456789ABCDEF" !! n).

Definition escape (c : ascii) : string :=
  let n := Ascii.nat_of_ascii c in
  String "%" (String (hex_digit (n / 16)) (String (hex_digit (n mod 16)) "")).

Fixpoint encodeURIComponent (s : string) : string :=
  match s with
  | EmptyString => EmptyString
  | String c r =>
      (if unreserved c then String c "" else escape c) +:+ encodeURIComponent r
  end.

End Uri.

(** The double-quote character of the command line and of the manifest. *)
Definition dq : string := String (Ascii.ascii_of_nat 34) "".

Definition quoted (s : string) : string := dq +:+ s +:+ dq.

(** The undefined-property message of the runtime. *)
Definition undefined_read (prop : string) : string :=
  "Cannot read properties of undefined (reading '" +:+ prop +:+ "')".

(** ** The server *)

Section Server.

(** The configuration, the identifiers [uuidv4] returns in order, the
    clock, and the external signing tool: given a command line and the
    disk it finds, it leaves a disk and reports to [exec]'s callback. *)
Variable cfg : Config.
Variable uuid : nat → string.
Variable now : Z.
Variable tool : string → FS → ExecResult * FS.

Definition uuidv4 : M string :=
  λ w, (Ok (uuid (w_uuid w)), mkWorld (w_fs w) (S (w_uuid w)) (w_execs w)).

(** [exec(cmd, callback)]: the tool runs, then the callback receives its
    report. *)
Definition exec (cmd : string) : M ExecResult :=
  λ w, let '(r, fs') := tool cmd (w_fs w) in
       (Ok r, mkWorld fs' (w_uuid w) (w_execs w ++ [cmd])).

(** *** Upload intake (lines 44-77) *)

(** [storage.destination] *)
Definition destination (body : gmap string string) : M Path.t :=
  sessionId ← (if Str.truthy (body !! "sessionId")
               then mret (default "" (body !! "sessionId"))
               else uuidv4);
  let sessionDir := Path.join (UPLOAD_DIR cfg) sessionId in
  ex ← existsSync sessionDir;
  when (negb ex) (mkdirSync_p now sessionDir);;
  mret sessionDir.

(** [storage.filename] *)
Definition filename (originalname : string) : string := originalname.

Definition allowedExtensions : list string := [".ipa"; ".p12"; ".mobileprovision"].

(** [fileFilter]: the accepted files, and the error for the others. *)
Definition fileFilter (originalname : string) : M unit :=
  let ext := Str.toLowerCase (Path.extname originalname) in
  if bool_decide (ext ∈ allowedExtensions) then mret tt
  else throw ("Invalid file type. Allowed: " +:+ Str.join ", " allowedExtensions).

(** The argument of [upload.fields]. *)
Definition fields : list (string * nat) :=
  [("ipa", 1%nat); ("certificate", 1%nat); ("provision", 1%nat)].

Definition maxCount (field : string) : nat :=
  match List.find (λ f, String.eqb f.1 field) fields with
  | Some f => f.2
  | None => 0%nat
  end.

(** A part of a multipart body, in the order the client sent it. *)
Inductive Part :=
| TextField (name value : string)
| FileField (field original : string) (size : N).

Definition stored (req : Request) (field : string) : list UploadedFile :=
  default [] (req_files req ≫= λ fs, fs !! field).

(** The middleware's handling of one part: a text field is added to
    [req.body]; a file part with a name is checked against the field
    list, filtered, stored under [destination]/[filename] and appended to
    [req.files].  Text field names are taken to be distinct. *)
Definition multer_part (req : Request) (p : Part) : M Request :=
  match p with
  | TextField name value =>
      mret (mkRequest (<[name := value]> (req_body req)) (req_files req))
  | FileField field original size =>
      if bool_decide (original = "") then mret req
      else if bool_decide (maxCount field ≤ length (stored req field))%nat
      then throw "Unexpected field"
      else
        fileFilter original;;
        dir ← destination (req_body req);
        let finalPath := Path.join dir (filename original) in
        fs ← get_fs;
        set_fs (<[finalPath := Node RegularFile size now]> fs);;
        let file := mkFile field original finalPath size in
        mret (mkRequest (req_body req)
                (Some (<[field := stored req field ++ [file]]>
                         (default ∅ (req_files req)))))
  end.

Fixpoint multer_parts (req : Request) (ps : list Part) : M Request :=
  match ps with
  | [] => mret req
  | p :: rest => req' ← multer_part req p; multer_parts req' rest
  end.

(** [upload.fields(...)] on a multipart body. *)
Definition upload (ps : list Part) : M Request :=
  multer_parts (mkRequest ∅ (Some ∅)) ps.

(** *** Signing (lines 72-161) *)

Definition outputFileName (ipaFile : UploadedFile) : string :=
  Path.parse_name (originalname ipaFile) +:+ "_signed_" +:+ pretty now +:+ ".ipa".

Definition outputPath (ipaFile : UploadedFile) : Path.t :=
  Path.join (OUTPUT_DIR cfg) (outputFileName ipaFile).

(** Lines 97-110: the command line, built by successive appends. *)
Definition zsignCmd (password bundleId : option string)
    (ipaFile certFile provisionFile : UploadedFile) : string :=
  let cmd := ZSIGN_PATH cfg +:+ " -k " +:+ quoted (Path.show (file_path certFile)) in
  let cmd := if Str.truthy password
             then cmd +:+ " -p " +:+ quoted (default "" password) else cmd in
  let cmd := cmd +:+ " -m " +:+ quoted (Path.show (file_path provisionFile)) in
  let cmd := if Str.truthy bundleId
             then cmd +:+ " -b " +:+ quoted (default "" bundleId) else cmd in
  cmd +:+ " -o " +:+ quoted (Path.show (outputPath ipaFile))
      +:+ " " +:+ quoted (Path.show (file_path ipaFile)).

Definition downloadUrl (name : string) : string :=
  DOMAIN cfg +:+ "/output/" +:+ name.

Definition installUrl (name : string) : string :=
  "itms-services://?action=download-manifest&url="
  +:+ Uri.encodeURIComponent (DOMAIN cfg +:+ "/api/manifest/" +:+ name).

Definition missing_files : response :=
  res_json 400 (JObj [
    ("success", JBool false);
    ("error", JStr "Missing required files. Please upload IPA, P12 certificate, and provisioning profile.")]).

Definition sign_failed (details : string) : response :=
  res_json 500 (JObj [
    ("success", JBool false);
    ("error", JStr "Failed to sign IPA. Please check your certificate and provisioning profile.");
    ("details", JStr details)]).

Definition sign_succeeded (ipaFile : UploadedFile) (size : N) : response :=
  res_json 200 (JObj [
    ("success", JBool true);
    ("message", JStr "IPA signed successfully");
    ("data", JObj [
       ("fileName", JStr (outputFileName ipaFile));
       ("downloadUrl", JStr (downloadUrl (outputFileName ipaFile)));
       ("installUrl", JStr (installUrl (outputFileName ipaFile)));
       ("size", JNum (Z.of_N size))])]).

Definition internal_error (message : string) : response :=
  res_json 500 (JObj [
    ("success", JBool false);
    ("error", JStr "Internal server error");
    ("details", JStr message)]).

(** Lines 114-126: the uploaded files, then the session directory. *)
Definition sign_cleanup (ipaFile certFile provisionFile : UploadedFile) : M unit :=
  let cleanupFiles := [file_path ipaFile; file_path certFile; file_path provisionFile] in
  forEach cleanupFiles (λ file,
    ex ← existsSync file; when ex (unlinkSync file));;
  let sessionDir := Path.dirname (file_path ipaFile) in
  ex ← existsSync sessionDir;
  when ex (rmSync_rf sessionDir).

(** Lines 128-150: the answer. *)
Definition sign_answer (ipaFile : UploadedFile) (r : ExecResult) : M response :=
  match exec_error r with
  | Some message => mret (sign_failed (Str.or_else (exec_stderr r) message))
  | None =>
      existsSync (outputPath ipaFile) ≫= λ ex : bool,
      size ← (if ex return M N
              then n ← statSync (outputPath ipaFile); mret (node_size n)
              else mret 0%N);
      mret (sign_succeeded ipaFile size)
  end.

(** Lines 113-151: the callback of [exec]. *)
Definition sign_callback (ipaFile certFile provisionFile : UploadedFile)
    (r : ExecResult) : M response :=
  sign_cleanup ipaFile certFile provisionFile;;
  sign_answer ipaFile r.

(** What the synchronous part of the handler ends with: a response, or the
    call of [exec] whose callback answers later. *)
Inductive step :=
| Respond (r : response)
| Exec (cmd : string) (ipaFile certFile provisionFile : UploadedFile).

(** Lines 78-111 and the [catch] of lines 153-160. *)
Definition sign_sync (req : Request) : M step :=
  try_catch
    (let password := req_body req !! "password" in
     let bundleId := req_body req !! "bundleId" in
     sessionId ← uuidv4;
     match req_files req with
     | None => mret (Respond missing_files)
     | Some files =>
         match files !! "ipa", files !! "certificate", files !! "provision" with
         | Some ipas, Some certs, Some provisions =>
             match head ipas with
             | None => throw (undefined_read "originalname")
             | Some ipaFile =>
                 match head certs with
                 | None => throw (undefined_read "path")
                 | Some certFile =>
                     match head provisions with
                     | None => throw (undefined_read "path")
                     | Some provisionFile =>
                         mret (Exec (zsignCmd password bundleId
                                       ipaFile certFile provisionFile)
                                    ipaFile certFile provisionFile)
                     end
                 end
             end
         | _, _, _ => mret (Respond missing_files)
         end
     end)
    (λ message, mret (Respond (internal_error message))).

(** [POST /api/sign] once the upload middleware has run.  A [Throw] of the
    result is an exception nothing catches: the callback of [exec] runs
    outside the handler's [try]. *)
Definition sign (req : Request) : M response :=
  s ← sign_sync req;
  match s with
  | Respond r => mret r
  | Exec cmd ipaFile certFile provisionFile =>
      r ← exec cmd;
      sign_callback ipaFile certFile provisionFile r
  end.

(** Lines 261-267: the error-handling middleware. *)
Definition error_middleware (message : string) : response :=
  res_json 500 (JObj [
    ("success", JBool false);
    ("error", JStr (Str.or_else message "Internal server error"))]).

(** [POST /api/sign] on a multipart body: intake, then the handler. *)
Definition post_sign (ps : list Part) : M response :=
  r ← try_catch (inl <$> upload ps) (λ message, mret (inr (error_middleware message)));
  match r with
  | inl req => sign req
  | inr resp => mret resp
  end.

(** *** The install manifest (lines 163-202) *)

Definition manifest_head : string :=
  "<?xml version=" +:+ quoted "1.0" +:+ " encoding=" +:+ quoted "UTF-8" +:+ "?>
<!DOCTYPE plist PUBLIC " +:+ quoted "-//Apple//DTD PLIST 1.0//EN" +:+ " "
    +:+ quoted "http://www.apple.com/DTDs/PropertyList-1.0.dtd" +:+ ">
<plist version=" +:+ quoted "1.0" +:+ ">
<dict>
  <key>items</key>
  <array>
    <dict>
      <key>assets</key>
      <array>
        <dict>
          <key>kind</key>
          <string>software-package</string>
          <key>url</key>
          <string>".

Definition manifest_tail : string :=
  "</string>
        </dict>
      </array>
      <key>metadata</key>
      <dict>
        <key>bundle-identifier</key>
        <string>com.example.app</string>
        <key>bundle-version</key>
        <string>1.0</string>
        <key>kind</key>
        <string>software</string>
        <key>title</key>
        <string>Signed App</string>
      </dict>
    </dict>
  </array>
</dict>
</plist>".

Definition manifest (filename : string) : response :=
  let ipaUrl := DOMAIN cfg +:+ "/output/" +:+ filename in
  let manifest := manifest_head +:+ ipaUrl +:+ manifest_tail in
  mkResponse 200 "application/xml" (Sent manifest).

(** *** The artifact registry (lines 204-242) *)

Record FileInfo := mkInfo {
  name : string;
  size : N;
  created : Z;
  info_downloadUrl : string
}.

(** [xs.map(f)] for an [f] that may throw. *)
Fixpoint mapM {A B} (f : A → M B) (xs : list A) : M (list B) :=
  match xs with
  | [] => mret []
  | x :: rest => y ← f x; ys ← mapM f rest; mret (y :: ys)
  end.

(** [xs.sort(cmp)]: the sort is stable, and [cmp a b > 0] puts [a] after
    [b]. *)
Fixpoint sort_insert {A} (cmp : A → A → Z) (x : A) (l : list A) : list A :=
  match l with
  | [] => [x]
  | y :: ys => if cmp x y <=? 0 then x :: l else y :: sort_insert cmp x ys
  end.

Definition sort {A} (cmp : A → A → Z) (l : list A) : list A :=
  foldr (sort_insert cmp) [] l.

Definition file_info (file : string) : M FileInfo :=
  let filePath := Path.join (OUTPUT_DIR cfg) file in
  stats ← statSync filePath;
  mret (mkInfo file (node_size stats) (node_birthtime stats) (downloadUrl file)).

Definition listing : M (list FileInfo) :=
  entries ← readdirSync (OUTPUT_DIR cfg);
  files ← mapM file_info (filter (λ file, Str.endsWith file ".ipa" = true) entries);
  mret (sort (λ a b, created b - created a) files).

Definition info_json (f : FileInfo) : json :=
  JObj [("name", JStr (name f)); ("size", JNum (Z.of_N (size f)));
        ("created", JDate (created f)); ("downloadUrl", JStr (info_downloadUrl f))].

Definition failure (code : nat) (message : string) : response :=
  res_json code (JObj [("success", JBool false); ("error", JStr message)]).

(** [GET /api/files] *)
Definition list_files : M response :=
  try_catch
    (files ← listing;
     mret (res_json 200 (JObj [("success", JBool true);
                               ("files", JArr (info_json <$> files))])))
    (λ message, mret (failure 500 message)).

Definition deleted : response :=
  res_json 200 (JObj [("success", JBool true);
                      ("message", JStr "File deleted successfully")]).

(** [DELETE /api/files/:filename] *)
Definition delete_file (filename : string) : M response :=
  try_catch
    (let filePath := Path.join (OUTPUT_DIR cfg) filename in
     ex ← existsSync filePath;
     if negb ex then mret (failure 404 "File not found")
     else unlinkSync filePath;; mret deleted)
    (λ message, mret (failure 500 message)).

End Server.

(** ** Reading the manifest back

    What a client makes of the manifest document: its tags and texts, the
    texts with the predefined entities resolved, and the assets of kind
    [software-package] in the layout the template gives them.  Character
    references by number are not resolved. *)

Module Plist.

Inductive token := Tag (s : string) | Text (s : string).

#[global] Instance token_eq_dec : EqDecision token.
Proof. solve_decision. Defined.

Record lexer := mkLexer {
  in_tag : bool;
  buffer : string;
  emitted : list token   (* newest first *)
}.

Definition lex_step (st : lexer) (c : ascii) : lexer :=
  if in_tag st then
    if Ascii.eqb c ">" then mkLexer false "" (Tag (buffer st) :: emitted st)
    else mkLexer true (buffer st +:+ String c "") (emitted st)
  else
    if Ascii.eqb c "<" then mkLexer true "" (Text (buffer st) :: emitted st)
    else mkLexer false (buffer st +:+ String c "") (emitted st).

Fixpoint lex (st : lexer) (s : string) : lexer :=
  match s with
  | EmptyString => st
  | String c r => lex (lex_step st c) r
  end.

Definition finish (st : lexer) : list token :=
  rev (if in_tag st then emitted st else Text (buffer st) :: emitted st).

Definition tokens (s : string) : list token :=
  finish (lex (mkLexer false "" []) s).

Definition blank (s : string) : bool :=
  forallb Ascii.is_space (String.list_ascii_of_string s).

Definition entities : list (string * ascii) :=
  [("amp;", "&"%char); ("lt;", "<"%char); ("gt;", ">"%char);
   ("quot;", Ascii.ascii_of_nat 34); ("apos;", "'"%char)].

(** The entity that starts right after an ampersand: its character and
    the number of bytes of its name. *)
Definition entity_at (s : string) : option (ascii * nat) :=
  (λ e, (e.2, String.length e.1))
    <$> List.find (λ e, String.prefix e.1 s) entities.

(** The text with its entities resolved; [None] when an ampersand starts
    no entity.  [skip] counts the bytes of an entity name still to pass. *)
Fixpoint unescape (skip : nat) (s : string) : option string :=
  match s with
  | EmptyString => Some EmptyString
  | String c r =>
      match skip with
      | S k => unescape k r
      | O =>
          if Ascii.eqb c "&" then
            match entity_at r with
            | Some (ch, len) => String ch <$> unescape len r
            | None => None
            end
          else String c <$> unescape 0 r
      end
  end.

(** White space between tags is dropped, other text is unescaped. *)
Definition norm_token (t : token) : option (list token) :=
  match t with
  | Tag s => Some [Tag s]
  | Text s => if blank s then Some [] else (λ v, [Text v]) <$> unescape 0 s
  end.

Fixpoint norm (toks : list token) : option (list token) :=
  match toks with
  | [] => Some []
  | t :: rest =>
      match norm_token t, norm rest with
      | Some a, Some b => Some (a ++ b)
      | _, _ => None
      end
  end.

Fixpoint after_prefix (pat toks : list token) : option (list token) :=
  match pat with
  | [] => Some toks
  | p :: ps =>
      match toks with
      | t :: ts => if decide (p = t) then after_prefix ps ts else None
      | [] => None
      end
  end.

Definition asset_open : list token :=
  [Tag "dict"; Tag "key"; Text "kind"; Tag "/key";
   Tag "string"; Text "software-package"; Tag "/string";
   Tag "key"; Text "url"; Tag "/key"; Tag "string"].

Definition asset_close : list token := [Tag "/string"; Tag "/dict"].

(** The URL of the software-package asset that starts at the head of
    [toks], if one does. *)
Definition asset_at (toks : list token) : option string :=
  match after_prefix asset_open toks with
  | Some (Text u :: rest) =>
      match after_prefix asset_close rest with
      | Some _ => Some u
      | None => None
      end
  | _ => None
  end.

Fixpoint assets_of (toks : list token) : list string :=
  match toks with
  | [] => []
  | t :: rest =>
      match asset_at toks with
      | Some u => u :: assets_of rest
      | None => assets_of rest
      end
  end.

(** The URLs of the software-package assets of a document, [None] when the
    document is not well formed. *)
Definition assets (doc : string) : option (list string) :=
  assets_of <$> norm (tokens doc).

(** Text that needs no escaping. *)
Definition plain (s : string) : Prop :=
  ¬ Str.mem "<" s ∧ ¬ Str.mem "&" s.

#[global] Instance plain_dec s : Decision (plain s).
Proof. unfold plain. apply _. Defined.

End Plist.

(** ** A deployment to run the handlers on *)

Module Sample.

Definition cfg : Config :=
  mkConfig "http://localhost:3000" "zsign" ["app"; "uploads"] ["app"; "output"].

Definition uuid (n : nat) : string := "session-" +:+ pretty n.

Definition now : Z := 1234567890.

Definition dir : node := Node Directory 4096 0.

(** The disk after start-up (lines 20-25). *)
Definition disk : FS :=
  list_to_map [([], dir); (["app"], dir);
               (["app"; "uploads"], dir); (["app"; "output"], dir)].

Definition world : World := mkWorld disk 0 [].

Definition signed : Path.t := ["app"; "output"; "app_signed_1234567890.ipa"].

(** A tool that writes the signed package and exits with status 0. *)
Definition tool_signs (cmd : string) (fs : FS) : ExecResult * FS :=
  (mkExec None "Signed OK" "", <[signed := Node RegularFile 4242 now]> fs).

(** A tool that exits with status 0 and writes nothing. *)
Definition tool_silent (cmd : string) (fs : FS) : ExecResult * FS :=
  (mkExec None "" "", fs).

(** A tool that fails. *)
Definition tool_fails (cmd : string) (fs : FS) : ExecResult * FS :=
  (mkExec (Some ("Command failed: " +:+ cmd)) "" "Invalid certificate", fs).

(** The request of the README: three files, then the two text fields. *)
Definition parts : list Part :=
  [FileField "ipa" "app.ipa" 100;
   FileField "certificate" "cert.p12" 10;
   FileField "provision" "profile.mobileprovision" 5;
   TextField "password" "mypassword";
   TextField "bundleId" "com.example.newapp"].

Definition ipaFile : UploadedFile :=
  mkFile "ipa" "app.ipa" ["app"; "uploads"; "s"; "app.ipa"] 100.
Definition certFile : UploadedFile :=
  mkFile "certificate" "cert.p12" ["app"; "uploads"; "s"; "cert.p12"] 10.
Definition provisionFile : UploadedFile :=
  mkFile "provision" "profile.mobileprovision"
         ["app"; "uploads"; "s"; "profile.mobileprovision"] 5.

(** A request whose three files share one session directory. *)
Definition request : Request :=
  mkRequest {[ "password" := "mypassword" ]}
            (Some (list_to_map [("ipa", [ipaFile]); ("certificate", [certFile]);
                                ("provision", [provisionFile])])).

Definition uploaded : World :=
  mkWorld (<[file_path ipaFile := Node RegularFile 100 now]>
           (<[file_path certFile := Node RegularFile 10 now]>
            (<[file_path provisionFile := Node RegularFile 5 now]>
             (<[["app"; "uploads"; "s"] := dir]> disk))))
          0 [].

(** An output directory with two packages and a note. *)
Definition published : World :=
  mkWorld (<[["app"; "output"; "old.ipa"] := Node RegularFile 7 10]>
           (<[["app"; "output"; "new.ipa"] := Node RegularFile 9 20]>
            (<[["app"; "output"; "notes.txt"] := Node RegularFile 1 30]>
             (<[["app"; "server.js"] := Node RegularFile 8000 5]> disk))))
          0 [].

End Sample.

(** ** Vocabulary of the properties *)

(** No file of the field [field] reached the handler. *)
Definition absent (req : Request) (field : string) : Prop :=
  (req_files req ≫= λ files, files !! field) = None.

(** The first file of each of the three fields. *)
Definition uploads (req : Request) (ipaFile certFile provisionFile : UploadedFile) : Prop :=
  ∃ files, req_files req = Some files
    ∧ (files !! "ipa") ≫= head = Some ipaFile
    ∧ (files !! "certificate") ≫= head = Some certFile
    ∧ (files !! "provision") ≫= head = Some provisionFile.

(** [ -flag "value"] when a non-empty value was supplied, nothing otherwise. *)
Definition optional_flag (flag : string) (value : option string) : string :=
  match value with
  | Some v => if decide (v = "") then "" else " " +:+ flag +:+ " " +:+ quoted v
  | None => ""
  end.

(** The command line as the interface of the tool words it:
    [<tool> -k <cert> [-p <password>] -m <profile> [-b <bundleId>] -o <output> <input>]. *)
Definition command_line (tool cert : string) (password : option string)
    (profile : string) (bundleId : option string) (output input : string) : string :=
  tool +:+ " -k " +:+ quoted cert
       +:+ optional_flag "-p" password
       +:+ " -m " +:+ quoted profile
       +:+ optional_flag "-b" bundleId
       +:+ " -o " +:+ quoted output +:+ " " +:+ quoted input.

(** The paths the cleanup of a signing request goes through. *)
Definition inputs (ipaFile certFile provisionFile : UploadedFile) : list Path.t :=
  [file_path ipaFile; file_path certFile; file_path provisionFile].

(** The disk the cleanup of lines 114-126 leaves when no [unlinkSync] throws. *)
Definition cleaned (ipaFile certFile provisionFile : UploadedFile) (fs : FS) : FS :=
  let fs' := delete (file_path provisionFile)
               (delete (file_path certFile) (delete (file_path ipaFile) fs)) in
  if decide (is_Some (fs' !! Path.dirname (file_path ipaFile)))
  then Fs.rm_rf (Path.dirname (file_path ipaFile)) fs'
  else fs'.

(** What [GET /api/files] reports of the entry [file] of the output
    directory. *)
Definition entry_info (cfg : Config) (fs : FS) (file : string) : FileInfo :=
  let stats := default (Node RegularFile 0 0) (fs !! (OUTPUT_DIR cfg ++ [file])) in
  mkInfo file (node_size stats) (node_birthtime stats)
         (DOMAIN cfg +:+ "/output/" +:+ file).

(** Newest first. *)
Definition newer_first (a b : FileInfo) : Prop := created b ≤ created a.

(** An entry named [file] exists in the output directory. *)
Definition in_output (cfg : Config) (fs : FS) (file : string) : Prop :=
  is_Some (fs !! (OUTPUT_DIR cfg ++ [file])).

#[global] Instance in_output_dec cfg fs file : Decision (in_output cfg fs file).
Proof. unfold in_output. apply _. Defined.

(** A listing of the world [w] succeeds and names [file]. *)
Definition listed (cfg : Config) (w : World) (file : string) : Prop :=
  ∃ files w', listing cfg w = (Ok files, w') ∧ file ∈ name <$> files.

(** The delete contract in the words of the specification: not found when
    no file of that name exists in the output directory; otherwise the file
    is removed from disk, success is reported and a subsequent listing no
    longer contains it. *)
Definition delete_contract (cfg : Config) (file : string) (w : World) : Prop :=
  let run := delete_file cfg file w in
  if decide (in_output cfg (w_fs w) file) then
    run.1 = Ok (res_json 200 (JObj [("success", JBool true);
                                    ("message", JStr "File deleted successfully")]))
    ∧ ¬ in_output cfg (w_fs run.2) file
    ∧ ¬ listed cfg run.2 file
  else
    run.1 = Ok (res_json 404 (JObj [("success", JBool false);
                                    ("error", JStr "File not found")])).

(** The manifest contract in the words of the specification: an XML
    document with exactly one software-package asset, whose URL is the
    domain joined with [/output/<file>], sent as XML. *)
Definition manifest_contract (cfg : Config) (file : string) : Prop :=
  ∃ doc, manifest cfg file = mkResponse 200 "application/xml" (Sent doc)
    ∧ Plist.assets doc = Some [DOMAIN cfg +:+ "/output/" +:+ file].

(** The not-found rule of the specification for the manifest endpoint. *)
Definition manifest_not_found (cfg : Config) (file : string) (w : World) : Prop :=
  ¬ in_output cfg (w_fs w) file → status (manifest cfg file) = 404%nat.

(** The tokens the manifest template emits before and after the URL, newest
    first; the text being read at the end of the tail is left out. *)
Definition head_emitted : list Plist.token :=
  Eval vm_compute in
    Plist.emitted (Plist.lex (Plist.mkLexer false "" []) manifest_head).

Definition tail_emitted : list Plist.token :=
  Eval vm_compute in
    removelast (Plist.emitted (Plist.lex (Plist.mkLexer false "" []) manifest_tail)).

(** A computation that touches the disk only: it hands out no identifier and
    runs no command. *)
Definition disk_only {A} (m : M A) : Prop :=
  ∀ w, w_uuid (m w).2 = w_uuid w ∧ w_execs (m w).2 = w_execs w.

#[global] Instance is_dir_dec (fs : FS) (p : Path.t) : Decision (Fs.is_dir fs p).
Proof.
  refine (match fs !! p as o return fs !! p = o → _ with
          | Some (Node Directory sz bt) => λ E, left _
          | Some (Node RegularFile sz bt) => λ E, right _
          | None => λ E, right _
          end eq_refl).
  - intros (n & Hn & Hk). rewrite E in Hn. by simplify_eq.
  - by eexists.
  - intros (n & Hn & Hk). by rewrite E in Hn.
Defined.

(** ** Start-up and the cross-origin check *)

(** Lines 20-25: the upload and the output directory are created when they
    do not exist. *)
Definition ensure_dirs (cfg : Config) (now : Z) : M unit :=
  forEach [UPLOAD_DIR cfg; OUTPUT_DIR cfg] (λ dir,
    ex ← existsSync dir; when (negb ex) (mkdirSync_p now dir)).

Module Cors.

(** [s.split(sep)] for a separator of one character. *)
Fixpoint split (sep : ascii) (s : string) : list string :=
  match s with
  | EmptyString => [""]
  | String c r =>
      if Ascii.eqb c sep then "" :: split sep r
      else match split sep r with
           | item :: items => String c item :: items
           | [] => [String c ""]
           end
  end.

(** Line 28; [env] is [process.env.ALLOWED_ORIGINS]. *)
Definition allowedOrigins (env : option string) (cfg : Config) : list string :=
  split "," (if Str.truthy env then default "" env else DOMAIN cfg).

(** Lines 29-37, with the error-handling middleware behind them: [None]
    lets the request through, otherwise the answer to the error
    ['Not allowed by CORS'].  [origin] is the [Origin] header. *)
Definition check (env : option string) (cfg : Config) (origin : option string)
    : option response :=
  if negb (Str.truthy origin)
     || bool_decide (default "" origin ∈ allowedOrigins env cfg)
  then None
  else Some (error_middleware "Not allowed by CORS").

End Cors.

#[global] Instance is_file_dec (fs : FS) (p : Path.t) : Decision (Fs.is_file fs p).
Proof.
  refine (match fs !! p as o return fs !! p = o → _ with
          | Some (Node RegularFile sz bt) => λ E, left _
          | Some (Node Directory sz bt) => λ E, right _
          | None => λ E, right _
          end eq_refl).
  - by eexists.
  - intros (n & Hn & Hk). rewrite E in Hn. by simplify_eq.
  - intros (n & Hn & Hk). by rewrite E in Hn.
Defined.

(** A computation that leaves the world as it found it. *)
Definition read_only {A} (m : M A) : Prop := ∀ w, (m w).2 = w.

(** A computation that runs no command. *)
Definition no_exec {A} (m : M A) : Prop := ∀ w, w_execs (m w).2 = w_execs w.

(** What the upload intake keeps true of the request it builds: only the
    three fields hold files, each holds exactly one, and that file is a
    regular file on the disk. *)
Definition intake_ok (req : Request) (fs : FS) : Prop :=
  ∃ files, req_files req = Some files
    ∧ ∀ field l, files !! field = Some l →
        field ∈ ["ipa"; "certificate"; "provision"]
        ∧ ∃ f, l = [f] ∧ Fs.is_file fs (file_path f).

(** * Properties *)

(** ** Strings and paths *)

Lemma app_assoc_str (a b c : string) : (a +:+ b) +:+ c = a +:+ (b +:+ c).
Proof.
  induction a as [|x a IH]; [reflexivity|].
  change (String x ((a +:+ b) +:+ c) = String x (a +:+ (b +:+ c))).
  by rewrite IH.
Qed.

Lemma app_empty_r (a : string) : a +:+ "" = a.
Proof.
  induction a as [|x a IH]; [reflexivity|].
  change (String x (a +:+ "") = String x a). by rewrite IH.
Qed.

Lemma app_cons (x : ascii) (a b : string) : String x a +:+ b = String x (a +:+ b).
Proof. reflexivity. Qed.

Lemma mem_app (c : ascii) (a b : string) :
  Str.mem c (a +:+ b) ↔ Str.mem c a ∨ Str.mem c b.
Proof.
  unfold Str.mem. induction a as [|x a IH].
  - change ("" +:+ b) with b. simpl. rewrite elem_of_nil. tauto.
  - rewrite app_cons. simpl. rewrite !elem_of_cons, IH. tauto.
Qed.

(** Node's path functions and [encodeURIComponent] on sample values. *)
Example parse_name_ex1 : Path.parse_name "MyApp.ipa" = "MyApp".
Proof. reflexivity. Qed.
Example parse_name_ex2 : Path.parse_name ".ipa" = ".ipa".
Proof. reflexivity. Qed.
Example parse_name_ex3 : Path.parse_name "a.b.ipa" = "a.b".
Proof. reflexivity. Qed.
Example extname_ex1 : Path.extname "x.tar.P12" = ".P12".
Proof. reflexivity. Qed.
Example extname_ex2 : Path.extname ".." = "".
Proof. reflexivity. Qed.
Example join_ex1 : Path.join ["app"; "output"] "../server.js" = ["app"; "server.js"].
Proof. reflexivity. Qed.
Example join_ex2 : Path.show (Path.join ["app"; "uploads"] "u1") = "/app/uploads/u1".
Proof. reflexivity. Qed.
Example endsWith_ex : Str.endsWith "a.ipa" ".ipa" = true ∧ Str.endsWith "ipa" ".ipa" = false.
Proof. split; reflexivity. Qed.
Example pretty_ex : pretty (1700000000000 : Z) = "1700000000000".
Proof. vm_compute. reflexivity. Qed.
Example encode_ex :
  Uri.encodeURIComponent "http://h:3000/api/manifest/My App_signed_1.ipa"
  = "http%3A%2F%2Fh%3A3000%2Fapi%2Fmanifest%2FMy%20App_signed_1.ipa".
Proof. reflexivity. Qed.

(** ** The monad *)

Lemma disk_only_ret {A} (a : A) : disk_only (mret a).
Proof. by intros w. Qed.

Lemma disk_only_throw {A} (e : string) : disk_only (@throw A e).
Proof. by intros w. Qed.

Lemma disk_only_get_fs : disk_only get_fs.
Proof. by intros w. Qed.

Lemma disk_only_set_fs fs : disk_only (set_fs fs).
Proof. by intros w. Qed.

Lemma disk_only_bind {A B} (m : M A) (k : A → M B) :
  disk_only m → (∀ a, disk_only (k a)) → disk_only (m ≫= k).
Proof.
  intros Hm Hk w. unfold mbind, M_bind.
  destruct (Hm w) as [Hu He]. destruct (m w) as [[a|e] w1]; simpl in *.
  - destruct (Hk a w1) as [Hu' He']. by rewrite Hu', He'.
  - done.
Qed.

Lemma disk_only_when b (m : M unit) : disk_only m → disk_only (when b m).
Proof. destruct b; [done|]. intros _. apply disk_only_ret. Qed.

Lemma disk_only_forEach {A} (xs : list A) (f : A → M unit) :
  (∀ x, disk_only (f x)) → disk_only (forEach xs f).
Proof.
  intros Hf. induction xs as [|x xs IH]; simpl.
  - apply disk_only_ret.
  - apply disk_only_bind; auto.
Qed.

Create HintDb disk discriminated.
#[global] Hint Resolve disk_only_ret disk_only_throw disk_only_get_fs
  disk_only_set_fs disk_only_when disk_only_forEach : disk.

Ltac disk_only :=
  repeat first
    [ progress auto with disk
    | apply disk_only_bind; [|intros ?]
    | match goal with
      | |- disk_only (match ?x with _ => _ end) => destruct x
      | |- disk_only (if ?b then _ else _) => destruct b
      end ].

Lemma disk_only_existsSync p : disk_only (existsSync p).
Proof. unfold existsSync. disk_only. Qed.

Lemma disk_only_unlinkSync p : disk_only (unlinkSync p).
Proof. unfold unlinkSync. disk_only. Qed.

Lemma disk_only_rmSync_rf p : disk_only (rmSync_rf p).
Proof. unfold rmSync_rf. disk_only. Qed.

Lemma disk_only_statSync p : disk_only (statSync p).
Proof. unfold statSync. disk_only. Qed.

#[global] Hint Resolve disk_only_existsSync disk_only_unlinkSync
  disk_only_rmSync_rf disk_only_statSync : disk.

(** ** The disk *)

(** Closes a decidable goal by evaluation. *)
Ltac by_evaluation :=
  match goal with |- ?P => apply (bool_decide_unpack P); vm_compute; exact I end.

Lemma wf_map_Forall (fs : FS) :
  map_Forall (λ p _, Forall Path.component p) fs → Fs.wf fs.
Proof. intros H p [n Hn]. exact (H p n Hn). Qed.

Lemma rm_rf_lookup (d p : Path.t) (fs : FS) :
  Fs.rm_rf d fs !! p = if decide (Fs.under d p) then None else fs !! p.
Proof.
  unfold Fs.rm_rf. rewrite map_lookup_filter.
  destruct (fs !! p) as [n|]; simpl; [|by case_decide].
  case_guard; simpl in *; by case_decide.
Qed.

Lemma not_dir_delete (fs : FS) (p q : Path.t) :
  ¬ Fs.is_dir fs p → ¬ Fs.is_dir (delete q fs) p.
Proof.
  intros H (n & Hn & Hk). apply H. exists n. split; [|done].
  by apply lookup_delete_Some in Hn as [_ ?].
Qed.

Lemma existsSync_run (p : Path.t) (w : World) :
  existsSync p w = (Ok (bool_decide (is_Some (w_fs w !! p))), w).
Proof. reflexivity. Qed.

Lemma statSync_run (p : Path.t) (w : World) (n : node) :
  w_fs w !! p = Some n → statSync p w = (Ok n, w).
Proof. intros H. cbv [statSync mbind M_bind get_fs]. by rewrite H. Qed.

Lemma readdirSync_run (d : Path.t) (w : World) :
  Fs.is_dir (w_fs w) d → readdirSync d w = (Ok (Fs.children d (w_fs w)), w).
Proof.
  intros (n & Hn & Hk). cbv [readdirSync mbind M_bind get_fs]. rewrite Hn.
  destruct n as [[|] sz bt]; by simplify_eq/=.
Qed.

Lemma unlinkSync_run (p : Path.t) (w : World) :
  Fs.is_file (w_fs w) p →
  unlinkSync p w = (Ok tt, mkWorld (delete p (w_fs w)) (w_uuid w) (w_execs w)).
Proof.
  intros (n & Hn & Hk). cbv [unlinkSync mbind M_bind get_fs]. rewrite Hn.
  destruct n as [[|] sz bt]; by simplify_eq/=.
Qed.

Lemma unlink_if_exists_run (p : Path.t) (w : World) :
  ¬ Fs.is_dir (w_fs w) p →
  (existsSync p ≫= λ ex, when ex (unlinkSync p)) w
  = (Ok tt, mkWorld (delete p (w_fs w)) (w_uuid w) (w_execs w)).
Proof.
  intros Hnd. destruct w as [fs u ex].
  unfold existsSync, unlinkSync, get_fs, set_fs, mbind, M_bind, mret, M_ret. simpl in *.
  destruct (fs !! p) as [[[|] sz bt]|] eqn:Hp; simpl.
  - rewrite Hp. done.
  - destruct Hnd. by eexists.
  - by rewrite delete_id.
Qed.

Lemma sign_cleanup_run (ipaFile certFile provisionFile : UploadedFile) (w : World) :
  Forall (λ p, ¬ Fs.is_dir (w_fs w) p) (inputs ipaFile certFile provisionFile) →
  sign_cleanup ipaFile certFile provisionFile w
  = (Ok tt, mkWorld (cleaned ipaFile certFile provisionFile (w_fs w))
                    (w_uuid w) (w_execs w)).
Proof.
  unfold inputs. rewrite !Forall_cons. intros (Hi & Hc & Hp & _).
  unfold sign_cleanup, cleaned. simpl forEach.
  unfold mbind at 1, M_bind at 1. unfold mbind at 1, M_bind at 1.
  rewrite (unlink_if_exists_run _ _ Hi).
  unfold mbind at 1, M_bind at 1.
  rewrite unlink_if_exists_run by (by apply not_dir_delete).
  unfold mbind at 1, M_bind at 1.
  rewrite unlink_if_exists_run by (by do 2 apply not_dir_delete).
  unfold existsSync, rmSync_rf, get_fs, set_fs, mbind, M_bind, mret, M_ret. simpl.
  rewrite bool_decide_decide. by case_decide.
Qed.

Lemma cleaned_lookup_None (ipaFile certFile provisionFile : UploadedFile) (fs : FS) (p : Path.t) :
  fs !! p = None → cleaned ipaFile certFile provisionFile fs !! p = None.
Proof.
  intros Hp. unfold cleaned.
  assert (∀ a b c, delete a (delete b (delete c fs)) !! p = None) as Hd.
  { intros. rewrite !lookup_delete_None. auto. }
  case_decide; [|done]. rewrite rm_rf_lookup. by case_decide.
Qed.

Lemma cleaned_lookup_keep (ipaFile certFile provisionFile : UploadedFile) (fs : FS) (p : Path.t) :
  p ∉ inputs ipaFile certFile provisionFile →
  ¬ Fs.under (Path.dirname (file_path ipaFile)) p →
  cleaned ipaFile certFile provisionFile fs !! p = fs !! p.
Proof.
  unfold inputs. rewrite !not_elem_of_cons. intros (Hi & Hc & Hp & _) Hu.
  unfold cleaned.
  assert (delete (file_path provisionFile)
            (delete (file_path certFile) (delete (file_path ipaFile) fs)) !! p
          = fs !! p) as Hd.
  { by rewrite !lookup_delete_ne. }
  case_decide; [|done]. rewrite rm_rf_lookup. by case_decide.
Qed.

Lemma cleaned_lookup_input (ipaFile certFile provisionFile : UploadedFile) (fs : FS) (p : Path.t) :
  p ∈ inputs ipaFile certFile provisionFile →
  cleaned ipaFile certFile provisionFile fs !! p = None.
Proof.
  intros Hin. unfold cleaned.
  assert (delete (file_path provisionFile)
            (delete (file_path certFile) (delete (file_path ipaFile) fs)) !! p
          = None) as Hd.
  { unfold inputs in Hin. rewrite !elem_of_cons, elem_of_nil in Hin.
    rewrite !lookup_delete_None. naive_solver. }
  case_decide; [|done]. rewrite rm_rf_lookup. by case_decide.
Qed.

Lemma cleaned_lookup_session (ipaFile certFile provisionFile : UploadedFile) (fs : FS) :
  cleaned ipaFile certFile provisionFile fs !! Path.dirname (file_path ipaFile) = None.
Proof.
  unfold cleaned. case_decide as H.
  - rewrite rm_rf_lookup. by rewrite decide_True by done.
  - by apply eq_None_not_Some.
Qed.

Lemma split_slash_plain (s : string) :
  ¬ Str.mem "/" s → Path.split_slash s = [s].
Proof.
  unfold Str.mem. induction s as [|c s IH]; [done|]. simpl.
  rewrite not_elem_of_cons. intros [Hc Hs].
  destruct (Ascii.eqb_spec c "/") as [->|_]; [done|].
  by rewrite IH.
Qed.

Lemma basename_plain (s : string) :
  s ≠ "" → ¬ Str.mem "/" s → Path.basename s = s.
Proof.
  intros Hne Hs. unfold Path.basename. rewrite split_slash_plain by done.
  rewrite filter_cons_True by done. done.
Qed.

Lemma split_last_dot_ipa (n : string) :
  Path.split_last_dot (n +:+ ".ipa") = Some (n, ".ipa").
Proof.
  induction n as [|c n IH]; [reflexivity|].
  rewrite app_cons. simpl. by rewrite IH.
Qed.

(** The name part of [N.ipa] is [N], for a base name [N]. *)
Lemma parse_name_ipa (n : string) :
  n ≠ "" → ¬ Str.mem "/" n → Path.parse_name (n +:+ ".ipa") = n.
Proof.
  intros Hne Hs. unfold Path.parse_name.
  rewrite basename_plain.
  - unfold Path.name_ext. rewrite split_last_dot_ipa.
    rewrite bool_decide_false; [done|].
    intros [?|Hdd]; [done|].
    assert (Str.mem "a" (n +:+ ".ipa")) as Ha.
    { apply mem_app. right. unfold Str.mem. simpl. set_solver. }
    rewrite Hdd in Ha. unfold Str.mem in Ha. simpl in Ha. set_solver.
  - by destruct n.
  - rewrite mem_app. intros [?|H]; [done|].
    unfold Str.mem in H. simpl in H. set_solver.
Qed.

Lemma encodeURIComponent_app (a b : string) :
  Uri.encodeURIComponent (a +:+ b)
  = Uri.encodeURIComponent a +:+ Uri.encodeURIComponent b.
Proof.
  induction a as [|c a IH]; [reflexivity|].
  rewrite app_cons. simpl. by rewrite IH, app_assoc_str.
Qed.

Lemma join_component (d : Path.t) (n : string) :
  Path.component n → Path.join d n = d ++ [n].
Proof.
  intros (Hne & Hdot & Hdotdot & Hslash). unfold Path.join.
  rewrite split_slash_plain by done. simpl. unfold Path.step.
  rewrite bool_decide_false by naive_solver.
  by rewrite bool_decide_false.
Qed.

Lemma child_name_Some (d p : Path.t) (n : string) :
  Fs.child_name d p = Some n ↔ p = d ++ [n].
Proof.
  unfold Fs.child_name. split.
  - case_bool_decide as H; [|done]. destruct H as [Hlen [k ->]].
    rewrite length_app in Hlen.
    destruct k as [|x [|y k]]; simpl in Hlen; try lia.
    rewrite last_snoc. by intros [= ->].
  - intros ->. rewrite bool_decide_true, last_snoc; [done|].
    split; [rewrite length_app; simpl; lia|by apply prefix_app_r].
Qed.

Lemma elem_of_children (d : Path.t) (fs : FS) (n : string) :
  n ∈ Fs.children d fs ↔ is_Some (fs !! (d ++ [n])).
Proof.
  unfold Fs.children. rewrite list_elem_of_omap. split.
  - intros ([p x] & Hin & Hc). apply elem_of_map_to_list in Hin.
    apply child_name_Some in Hc. simpl in Hc. subst p. by eexists.
  - intros [x Hx]. exists (d ++ [n], x). split.
    + by apply elem_of_map_to_list.
    + by apply child_name_Some.
Qed.

Lemma NoDup_omap_inj {A B} (f : A → option B) (l : list A) :
  (∀ x y z, x ∈ l → y ∈ l → f x = Some z → f y = Some z → x = y) →
  NoDup l → NoDup (omap f l).
Proof.
  intros Hinj Hnd. induction Hnd as [|x l Hx Hnd IH]; simpl; [constructor|].
  assert (NoDup (omap f l)) as IH'.
  { apply IH. intros a b z Ha Hb. apply Hinj; by right. }
  destruct (f x) as [z|] eqn:Hfx; [|done].
  constructor; [|done].
  rewrite list_elem_of_omap. intros (y & Hy & Hfy).
  assert (x = y) as -> by (eapply Hinj; eauto; [by left|by right]).
  done.
Qed.

Lemma NoDup_children (d : Path.t) (fs : FS) : NoDup (Fs.children d fs).
Proof.
  unfold Fs.children. apply NoDup_omap_inj; [|apply NoDup_map_to_list].
  intros [p x] [q y] n Hp Hq Hcp Hcq. simpl in *.
  apply child_name_Some in Hcp, Hcq. subst p q.
  apply elem_of_map_to_list in Hp, Hq. congruence.
Qed.

(** ** Sorting *)

Lemma StronglySorted_weaken {A} (R R' : A → A → Prop) (l : list A) :
  (∀ a b, R a b → R' a b) → StronglySorted R l → StronglySorted R' l.
Proof.
  intros HR. induction 1 as [|x l Hl IH Hx]; constructor; [done|].
  eapply Forall_impl; [exact Hx|]. auto.
Qed.

Section Sort.

Context {A : Type} (cmp : A → A → Z).
Hypothesis cmp_total : ∀ a b, ¬ cmp a b ≤ 0 → cmp b a ≤ 0.
Hypothesis cmp_trans : ∀ a b c, cmp a b ≤ 0 → cmp b c ≤ 0 → cmp a c ≤ 0.

Lemma sort_insert_perm (x : A) (l : list A) : sort_insert cmp x l ≡ₚ x :: l.
Proof using Type.
  induction l as [|y l IH]; simpl; [done|].
  destruct (cmp x y <=? 0); [done|].
  rewrite IH. apply Permutation_swap.
Qed.

Lemma sort_perm (l : list A) : sort cmp l ≡ₚ l.
Proof using Type.
  induction l as [|x l IH]; simpl; [done|].
  unfold sort in *. simpl. by rewrite sort_insert_perm, IH.
Qed.

Lemma sort_insert_sorted (x : A) (l : list A) :
  StronglySorted (λ a b, cmp a b ≤ 0) l →
  StronglySorted (λ a b, cmp a b ≤ 0) (sort_insert cmp x l).
Proof using cmp_total cmp_trans.
  induction 1 as [|y l Hl IH Hy]; simpl.
  - repeat constructor.
  - destruct (Z.leb_spec (cmp x y) 0) as [Hle|Hgt].
    + constructor; [by constructor|].
      constructor; [done|].
      eapply Forall_impl; [exact Hy|]. intros z Hz. by eapply cmp_trans.
    + constructor; [done|].
      rewrite sort_insert_perm. constructor; [|done].
      apply cmp_total. lia.
Qed.

Lemma sort_sorted (l : list A) : StronglySorted (λ a b, cmp a b ≤ 0) (sort cmp l).
Proof using cmp_total cmp_trans.
  induction l as [|x l IH]; [constructor|].
  unfold sort in *. simpl. by apply sort_insert_sorted.
Qed.

End Sort.

(** ** Reading the manifest *)

Lemma lex_app (st : Plist.lexer) (a b : string) :
  Plist.lex st (a +:+ b) = Plist.lex (Plist.lex st a) b.
Proof.
  revert st. induction a as [|c a IH]; intros st; [done|].
  rewrite app_cons. simpl. apply IH.
Qed.

(** Text without ["<"] only grows the text being read. *)
Lemma lex_text (buf u : string) (out : list Plist.token) :
  ¬ Str.mem "<" u →
  Plist.lex (Plist.mkLexer false buf out) u = Plist.mkLexer false (buf +:+ u) out.
Proof.
  unfold Str.mem. revert buf. induction u as [|c u IH]; intros buf Hu; simpl.
  - by rewrite app_empty_r.
  - simpl in Hu. apply not_elem_of_cons in Hu as [Hc Hu].
    unfold Plist.lex_step. simpl.
    destruct (Ascii.eqb_spec c "<") as [->|_]; [done|].
    rewrite IH by done. by rewrite app_assoc_str.
Qed.

Lemma lex_head :
  Plist.lex (Plist.mkLexer false "" []) manifest_head = Plist.mkLexer false "" head_emitted.
Proof. vm_compute; reflexivity. Qed.

Lemma lex_tail (buf : string) (out : list Plist.token) :
  Plist.lex (Plist.mkLexer false buf out) manifest_tail
  = Plist.mkLexer false "" (tail_emitted ++ Plist.Text buf :: out).
Proof. vm_compute; reflexivity. Qed.

Lemma finish_text (buf : string) (out : list Plist.token) :
  Plist.finish (Plist.mkLexer false buf out) = rev out ++ [Plist.Text buf].
Proof. reflexivity. Qed.

Lemma manifest_tokens (u : string) :
  ¬ Str.mem "<" u →
  Plist.tokens (manifest_head +:+ u +:+ manifest_tail)
  = rev head_emitted ++ Plist.Text u :: rev tail_emitted ++ [Plist.Text ""].
Proof.
  intros Hu. unfold Plist.tokens.
  rewrite !lex_app.
  rewrite lex_head.
  rewrite lex_text by done.
  change ("" +:+ u) with u.
  rewrite lex_tail, finish_text, rev_app_distr.
  change (rev (Plist.Text u :: head_emitted)) with (rev head_emitted ++ [Plist.Text u]).
  by rewrite <-!app_assoc.
Qed.

Lemma norm_app (a b : list Plist.token) :
  Plist.norm (a ++ b)
  = match Plist.norm a, Plist.norm b with
    | Some x, Some y => Some (x ++ y)
    | _, _ => None
    end.
Proof.
  induction a as [|t a IH]; simpl.
  - by destruct (Plist.norm b).
  - rewrite IH. destruct (Plist.norm_token t), (Plist.norm a), (Plist.norm b);
      simpl; by rewrite ?app_assoc.
Qed.

Lemma norm_text (u : string) (rest : list Plist.token) :
  Plist.blank u = false → Plist.unescape 0 u = Some u →
  Plist.norm (Plist.Text u :: rest)
  = match Plist.norm rest with
    | Some b => Some (Plist.Text u :: b)
    | None => None
    end.
Proof. intros Hb Hu. cbn [Plist.norm Plist.norm_token]. by rewrite Hb, Hu. Qed.

Lemma blank_url (domain file : string) :
  Plist.blank (domain +:+ "/output/" +:+ file) = false.
Proof.
  unfold Plist.blank. induction domain as [|c domain IH]; [done|].
  rewrite app_cons. simpl. rewrite IH. apply andb_false_r.
Qed.

Lemma unescape_plain (u : string) :
  ¬ Str.mem "&" u → Plist.unescape 0 u = Some u.
Proof.
  unfold Str.mem. induction u as [|c u IH]; intros Hu; simpl; [done|].
  simpl in Hu. apply not_elem_of_cons in Hu as [Hc Hu].
  destruct (Ascii.eqb_spec c "&") as [->|_]; [done|].
  by rewrite IH.
Qed.

Lemma manifest_assets (domain file : string) :
  Plist.plain (domain +:+ "/output/" +:+ file) →
  Plist.assets (manifest_head +:+ (domain +:+ "/output/" +:+ file) +:+ manifest_tail)
  = Some [domain +:+ "/output/" +:+ file].
Proof.
  intros [Hlt Hamp]. unfold Plist.assets.
  rewrite manifest_tokens by done.
  rewrite norm_app, norm_text by (apply blank_url || by apply unescape_plain).
  generalize (domain +:+ "/output/" +:+ file). intros u.
  vm_compute; reflexivity.
Qed.

Section Properties.

Context (cfg : Config) (uuid : nat → string) (now : Z)
        (tool : string → FS → ExecResult * FS).

(** ** Signing: validation *)

Lemma sign_sync_uploads req ipaFile certFile provisionFile w :
  uploads req ipaFile certFile provisionFile →
  sign_sync cfg uuid now req w
  = (Ok (Exec (zsignCmd cfg now (req_body req !! "password") (req_body req !! "bundleId")
                 ipaFile certFile provisionFile)
              ipaFile certFile provisionFile),
     mkWorld (w_fs w) (S (w_uuid w)) (w_execs w)).
Proof.
  intros (files & Hf & Hi & Hc & Hp).
  unfold sign_sync, try_catch, uuidv4, mbind, M_bind. simpl. rewrite Hf.
  destruct (files !! "ipa") as [ipas|]; [|done].
  destruct (files !! "certificate") as [certs|]; [|done].
  destruct (files !! "provision") as [provs|]; [|done].
  simpl in Hi, Hc, Hp. by rewrite Hi, Hc, Hp.
Qed.

(** C2: when one of the three file kinds is absent after parsing, the
    answer of [POST /api/sign] is the 400 response with the
    missing-required-files message; the disk is left as it was and nothing
    is added to the log of executed commands, so the signing tool has not
    been invoked. *)
Theorem sign_missing_files req w :
  absent req "ipa" ∨ absent req "certificate" ∨ absent req "provision" →
  sign cfg uuid now tool req w
  = (Ok (mkResponse 400 "application/json"
           (Json (JObj [
              ("success", JBool false);
              ("error", JStr "Missing required files. Please upload IPA, P12 certificate, and provisioning profile.")]))),
     mkWorld (w_fs w) (S (w_uuid w)) (w_execs w)).
Proof.
  unfold absent. intros H.
  unfold sign, sign_sync, try_catch, uuidv4, mbind, M_bind. simpl.
  destruct (req_files req) as [files|]; [|done]. simpl in H.
  destruct (files !! "ipa"); [|done].
  destruct (files !! "certificate"); [|done].
  destruct (files !! "provision"); [|done].
  by destruct H as [?|[?|?]].
Qed.

(** ** Signing: the command line *)

Lemma optional_flag_append (cmd flag : string) (value : option string) :
  (if Str.truthy value then cmd +:+ " " +:+ flag +:+ " " +:+ quoted (default "" value) else cmd)
  = cmd +:+ optional_flag flag value.
Proof.
  destruct value as [v|]; simpl; [|by rewrite app_empty_r].
  unfold optional_flag. rewrite bool_decide_decide.
  destruct (decide (v = "")); simpl; [by rewrite app_empty_r|done].
Qed.

Lemma zsignCmd_command_line password bundleId ipaFile certFile provisionFile :
  zsignCmd cfg now password bundleId ipaFile certFile provisionFile
  = command_line (ZSIGN_PATH cfg) (Path.show (file_path certFile)) password
      (Path.show (file_path provisionFile)) bundleId
      (Path.show (outputPath cfg now ipaFile)) (Path.show (file_path ipaFile)).
Proof.
  unfold zsignCmd, command_line.
  change (?c +:+ " -p " +:+ ?x) with (c +:+ " " +:+ "-p" +:+ " " +:+ x).
  change (?c +:+ " -b " +:+ ?x) with (c +:+ " " +:+ "-b" +:+ " " +:+ x).
  rewrite !optional_flag_append. by rewrite !app_assoc_str.
Qed.

Lemma disk_only_sign_callback ipaFile certFile provisionFile r :
  disk_only (sign_callback cfg now ipaFile certFile provisionFile r).
Proof.
  unfold sign_callback, sign_cleanup, sign_answer. disk_only.
Qed.

(** C1: with all three files present, exactly one command is handed to
    [exec], and it reads [<tool> -k <certificate path>], then
    [ -p <password>] exactly when a non-empty password was supplied, then
    [ -m <profile path>], then [ -b <bundleId>] exactly when a non-empty
    bundle identifier was supplied, then [ -o <output path> <package path>];
    each argument is written between double quotes. *)
Theorem sign_command_line req ipaFile certFile provisionFile w :
  uploads req ipaFile certFile provisionFile →
  w_execs (sign cfg uuid now tool req w).2
  = w_execs w ++
    [command_line (ZSIGN_PATH cfg) (Path.show (file_path certFile))
       (req_body req !! "password")
       (Path.show (file_path provisionFile))
       (req_body req !! "bundleId")
       (Path.show (Path.join (OUTPUT_DIR cfg)
          (Path.parse_name (originalname ipaFile) +:+ "_signed_" +:+ pretty now +:+ ".ipa")))
       (Path.show (file_path ipaFile))].
Proof.
  intros Hup. unfold sign, mbind at 1, M_bind at 1.
  rewrite (sign_sync_uploads _ _ _ _ _ Hup).
  unfold mbind, M_bind, exec at 1. simpl.
  destruct (tool _ _) as [r fs'].
  match goal with |- context [sign_callback ?c ?n ?i ?ce ?p ?r ?w0] =>
    destruct (disk_only_sign_callback i ce p r w0) as [_ He] end.
  rewrite He. simpl. by rewrite zsignCmd_command_line.
Qed.

(** ** Signing: the callback *)

Lemma sign_run req ipaFile certFile provisionFile w r fs' :
  uploads req ipaFile certFile provisionFile →
  tool (zsignCmd cfg now (req_body req !! "password") (req_body req !! "bundleId")
          ipaFile certFile provisionFile) (w_fs w) = (r, fs') →
  Forall (λ p, ¬ Fs.is_dir fs' p) (inputs ipaFile certFile provisionFile) →
  sign cfg uuid now tool req w
  = sign_answer cfg now ipaFile r
      (mkWorld (cleaned ipaFile certFile provisionFile fs') (S (w_uuid w))
         (w_execs w ++ [zsignCmd cfg now (req_body req !! "password")
                          (req_body req !! "bundleId") ipaFile certFile provisionFile])).
Proof.
  intros Hup Htool Hnd. unfold sign, mbind at 1, M_bind at 1.
  rewrite (sign_sync_uploads _ _ _ _ _ Hup).
  unfold mbind at 1, M_bind at 1, exec at 1. simpl. rewrite Htool.
  unfold sign_callback, mbind at 1, M_bind at 1.
  by rewrite sign_cleanup_run.
Qed.

Lemma sign_answer_success ipaFile r w :
  exec_error r = None →
  sign_answer cfg now ipaFile r w
  = (Ok (sign_succeeded cfg now ipaFile
           (from_option node_size 0%N (w_fs w !! outputPath cfg now ipaFile))), w).
Proof.
  intros Hr. unfold sign_answer. rewrite Hr.
  unfold existsSync, statSync, get_fs, mbind, M_bind, mret, M_ret. simpl.
  destruct (w_fs w !! outputPath cfg now ipaFile) eqn:E; simpl; by rewrite ?E.
Qed.

(** C5: when the tool reports an error, the answer of [POST /api/sign] is
    the 500 response with [success: false] whose [details] is the tool's
    standard error as it came, or the message of the error when the
    standard error is empty.  The cleanup before the answer must get
    through: no uploaded path may have become a directory. *)
Theorem sign_tool_failure req ipaFile certFile provisionFile w r fs' message :
  uploads req ipaFile certFile provisionFile →
  tool (zsignCmd cfg now (req_body req !! "password") (req_body req !! "bundleId")
          ipaFile certFile provisionFile) (w_fs w) = (r, fs') →
  exec_error r = Some message →
  Forall (λ p, ¬ Fs.is_dir fs' p) (inputs ipaFile certFile provisionFile) →
  (sign cfg uuid now tool req w).1
  = Ok (mkResponse 500 "application/json"
          (Json (JObj [
             ("success", JBool false);
             ("error", JStr "Failed to sign IPA. Please check your certificate and provisioning profile.");
             ("details", JStr (if decide (exec_stderr r = "") then message
                               else exec_stderr r))]))).
Proof.
  intros Hup Htool Herr Hnd. rewrite (sign_run _ _ _ _ _ _ _ Hup Htool Hnd).
  unfold sign_answer. rewrite Herr. simpl.
  unfold sign_failed, res_json, Str.or_else. rewrite bool_decide_decide.
  by destruct (decide _).
Qed.

(** C10: when the tool exits with status 0 and nothing exists at the
    output path, the answer is still the success response, with message
    ["IPA signed successfully"] and [data.size] 0. *)
Theorem sign_success_without_output req ipaFile certFile provisionFile w r fs' :
  uploads req ipaFile certFile provisionFile →
  tool (zsignCmd cfg now (req_body req !! "password") (req_body req !! "bundleId")
          ipaFile certFile provisionFile) (w_fs w) = (r, fs') →
  exec_error r = None →
  fs' !! outputPath cfg now ipaFile = None →
  Forall (λ p, ¬ Fs.is_dir fs' p) (inputs ipaFile certFile provisionFile) →
  (sign cfg uuid now tool req w).1
  = Ok (mkResponse 200 "application/json"
          (Json (JObj [
             ("success", JBool true);
             ("message", JStr "IPA signed successfully");
             ("data", JObj [
                ("fileName", JStr (outputFileName now ipaFile));
                ("downloadUrl", JStr (downloadUrl cfg (outputFileName now ipaFile)));
                ("installUrl", JStr (installUrl cfg (outputFileName now ipaFile)));
                ("size", JNum 0)])]))).
Proof.
  intros Hup Htool Herr Hout Hnd. rewrite (sign_run _ _ _ _ _ _ _ Hup Htool Hnd).
  rewrite sign_answer_success by done. simpl.
  by rewrite cleaned_lookup_None.
Qed.


(** X19: once the answer is out, the three uploaded files are gone and so is
    the directory that held the package. *)
Lemma sign_removes_inputs req ipaFile certFile provisionFile w r fs' :
  uploads req ipaFile certFile provisionFile →
  tool (zsignCmd cfg now (req_body req !! "password") (req_body req !! "bundleId")
          ipaFile certFile provisionFile) (w_fs w) = (r, fs') →
  Forall (λ p, ¬ Fs.is_dir fs' p) (inputs ipaFile certFile provisionFile) →
  let disk := w_fs (sign cfg uuid now tool req w).2 in
  (∀ p, p ∈ inputs ipaFile certFile provisionFile → disk !! p = None)
  ∧ disk !! Path.dirname (file_path ipaFile) = None.
Proof.
  intros Hup Htool Hnd. rewrite (sign_run _ _ _ _ _ _ _ Hup Htool Hnd).
  assert (∀ w1, (sign_answer cfg now ipaFile r w1).2 = w1) as ->.
  { intros w1. destruct (exec_error r) eqn:Herr.
    - unfold sign_answer. by rewrite Herr.
    - by rewrite sign_answer_success. }
  simpl. split.
  - intros p Hp. by apply cleaned_lookup_input.
  - apply cleaned_lookup_session.
Qed.

(** ** The registry: listing *)

Lemma file_info_run (w : World) (file : string) :
  Path.component file →
  is_Some (w_fs w !! (OUTPUT_DIR cfg ++ [file])) →
  file_info cfg file w = (Ok (entry_info cfg (w_fs w) file), w).
Proof.
  intros Hc [n Hn]. unfold file_info, entry_info, downloadUrl.
  rewrite join_component by done.
  unfold mbind, M_bind. rewrite (statSync_run _ _ _ Hn). by rewrite Hn.
Qed.

Lemma mapM_file_info_run (w : World) (names : list string) :
  Forall (λ file, Path.component file
                  ∧ is_Some (w_fs w !! (OUTPUT_DIR cfg ++ [file]))) names →
  mapM (file_info cfg) names w = (Ok (entry_info cfg (w_fs w) <$> names), w).
Proof.
  induction 1 as [|file names [Hc Hs] _ IH]; [done|].
  simpl. unfold mbind at 1, M_bind at 1. rewrite file_info_run by done.
  unfold mbind at 1, M_bind at 1. by rewrite IH.
Qed.

Lemma listing_run (w : World) :
  Fs.wf (w_fs w) → Fs.is_dir (w_fs w) (OUTPUT_DIR cfg) →
  listing cfg w
  = (Ok (sort (λ a b, created b - created a)
           (entry_info cfg (w_fs w)
              <$> filter (λ file, Str.endsWith file ".ipa" = true)
                    (Fs.children (OUTPUT_DIR cfg) (w_fs w)))), w).
Proof.
  intros Hwf Hdir. unfold listing.
  unfold mbind at 1, M_bind at 1. rewrite readdirSync_run by done.
  unfold mbind at 1, M_bind at 1. rewrite mapM_file_info_run; [done|].
  apply Forall_forall. intros file [_ Hin]%list_elem_of_filter.
  apply elem_of_children in Hin. split; [|done].
  specialize (Hwf _ Hin). apply Forall_app in Hwf as [_ Hwf].
  by apply Forall_cons in Hwf as [? _].
Qed.


(** ** The registry: deletion *)

Lemma file_info_name (file : string) (w w' : World) (i : FileInfo) :
  file_info cfg file w = (Ok i, w') → name i = file.
Proof.
  unfold file_info, mbind, M_bind.
  destruct (statSync _ w) as [[n|e] w1]; [|done]. by intros [= <- _].
Qed.

Lemma mapM_file_info_names (names : list string) (w w' : World) (infos : list FileInfo) :
  mapM (file_info cfg) names w = (Ok infos, w') → name <$> infos = names.
Proof.
  revert w w' infos. induction names as [|file names IH]; intros w w' infos; simpl.
  - by intros [= <- _].
  - unfold mbind at 1, M_bind at 1.
    destruct (file_info cfg file w) as [[i|e] w1] eqn:Hi; [|done].
    unfold mbind at 1, M_bind at 1.
    destruct (mapM _ names w1) as [[rest|e] w2] eqn:Hm; [|done].
    intros [= <- _]. rewrite fmap_cons.
    f_equal; [by eapply file_info_name|by eapply IH].
Qed.

(** Whatever a listing names is an entry of the output directory. *)
Lemma listed_in_output (w : World) (file : string) :
  listed cfg w file → in_output cfg (w_fs w) file.
Proof.
  intros (files & w' & Hl & Hin). unfold listing in Hl.
  unfold mbind at 1, M_bind at 1 in Hl.
  destruct (readdirSync _ w) as [[entries|e] w1] eqn:Hr; [|done].
  assert (w1 = w ∧ entries = Fs.children (OUTPUT_DIR cfg) (w_fs w)) as [-> ->].
  { revert Hr. cbv [readdirSync mbind M_bind get_fs].
    destruct (w_fs w !! OUTPUT_DIR cfg) as [[[|] ? ?]|]; by intros [= <- <-]. }
  unfold mbind at 1, M_bind at 1 in Hl.
  destruct (mapM _ _ w) as [[infos|e] w2] eqn:Hm; [|done].
  apply mapM_file_info_names in Hm. injection Hl as <- _.
  rewrite sort_perm, Hm in Hin.
  apply list_elem_of_filter in Hin as [_ Hin]. by apply elem_of_children.
Qed.

(** C9, as the code has it: for a name that is a single path component and
    does not name a directory, [DELETE /api/files/:filename] answers 404
    with ["File not found"] when the output directory has no entry of that
    name; otherwise it removes the file from disk, reports success, and no
    later listing names it. *)
Theorem delete_file_component (file : string) (w : World) :
  Path.component file →
  ¬ Fs.is_dir (w_fs w) (OUTPUT_DIR cfg ++ [file]) →
  delete_contract cfg file w.
Proof.
  intros Hc Hnd. unfold delete_contract, in_output.
  assert (delete_file cfg file w
          = if decide (is_Some (w_fs w !! (OUTPUT_DIR cfg ++ [file])))
            then (Ok deleted, mkWorld (delete (OUTPUT_DIR cfg ++ [file]) (w_fs w))
                                      (w_uuid w) (w_execs w))
            else (Ok (failure 404 "File not found"), w)) as ->.
  { unfold delete_file, try_catch. rewrite join_component by done.
    unfold mbind at 1, M_bind at 1. rewrite existsSync_run.
    destruct (decide _) as [Hex|Hex].
    - rewrite bool_decide_true by done. simpl.
      unfold mbind, M_bind. rewrite unlinkSync_run; [reflexivity|].
      destruct Hex as [[[|] sz bt] Hn]; [by eexists|].
      destruct Hnd. by eexists.
    - by rewrite bool_decide_false. }
  case_decide as Hex; simpl; [|done].
  assert (¬ is_Some (delete (OUTPUT_DIR cfg ++ [file]) (w_fs w)
                       !! (OUTPUT_DIR cfg ++ [file]))) as Hgone.
  { rewrite lookup_delete_eq. by intros [? ?]. }
  split; [done|]. split; [done|].
  intros Hl. by apply listed_in_output in Hl.
Qed.

(** ** The manifest *)

(** C7, as the code has it: the manifest endpoint does not look at the
    disk; for a name with no entry in the output directory it still
    answers 200 with an XML document. *)
Theorem manifest_without_artifact (file : string) (w : World) :
  ¬ in_output cfg (w_fs w) file →
  status (manifest cfg file) = 200%nat
  ∧ content_type (manifest cfg file) = "application/xml".
Proof. done. Qed.


End Properties.

(** ** The handlers on the sample deployment *)

Lemma sample_uploads :
  uploads Sample.request Sample.ipaFile Sample.certFile Sample.provisionFile.
Proof. eexists. split; [reflexivity|]. repeat split; vm_compute; reflexivity. Defined.

Lemma sample_no_directory :
  Forall (λ p, ¬ Fs.is_dir (w_fs Sample.uploaded) p)
         (inputs Sample.ipaFile Sample.certFile Sample.provisionFile).
Proof. by_evaluation. Defined.

Lemma sign_command_line_witness :
  w_execs (sign Sample.cfg Sample.uuid Sample.now Sample.tool_silent
             Sample.request Sample.uploaded).2
  = ["zsign -k " +:+ quoted "/app/uploads/s/cert.p12"
     +:+ " -p " +:+ quoted "mypassword"
     +:+ " -m " +:+ quoted "/app/uploads/s/profile.mobileprovision"
     +:+ " -o " +:+ quoted "/app/output/app_signed_1234567890.ipa"
     +:+ " " +:+ quoted "/app/uploads/s/app.ipa"].
Proof.
  exact (sign_command_line Sample.cfg Sample.uuid Sample.now Sample.tool_silent
           Sample.request Sample.ipaFile Sample.certFile Sample.provisionFile
           Sample.uploaded sample_uploads).
Defined.

Lemma sign_missing_files_witness :
  (sign Sample.cfg Sample.uuid Sample.now Sample.tool_signs
     (mkRequest ∅ (Some {[ "ipa" := [Sample.ipaFile] ]})) Sample.uploaded).1
  = Ok (mkResponse 400 "application/json"
          (Json (JObj [
             ("success", JBool false);
             ("error", JStr "Missing required files. Please upload IPA, P12 certificate, and provisioning profile.")]))).
Proof.
  rewrite (sign_missing_files Sample.cfg Sample.uuid Sample.now Sample.tool_signs
             (mkRequest ∅ (Some {[ "ipa" := [Sample.ipaFile] ]})) Sample.uploaded);
    [reflexivity|].
  right. left. vm_compute. reflexivity.
Defined.

Lemma sign_tool_failure_witness :
  (sign Sample.cfg Sample.uuid Sample.now Sample.tool_fails
     Sample.request Sample.uploaded).1
  = Ok (mkResponse 500 "application/json"
          (Json (JObj [
             ("success", JBool false);
             ("error", JStr "Failed to sign IPA. Please check your certificate and provisioning profile.");
             ("details", JStr "Invalid certificate")]))).
Proof.
  exact (sign_tool_failure Sample.cfg Sample.uuid Sample.now Sample.tool_fails
           Sample.request Sample.ipaFile Sample.certFile Sample.provisionFile
           Sample.uploaded _ _ _ sample_uploads eq_refl eq_refl sample_no_directory).
Defined.

Lemma sign_success_without_output_witness :
  (sign Sample.cfg Sample.uuid Sample.now Sample.tool_silent
     Sample.request Sample.uploaded).1
  = Ok (mkResponse 200 "application/json"
          (Json (JObj [
             ("success", JBool true);
             ("message", JStr "IPA signed successfully");
             ("data", JObj [
                ("fileName", JStr "app_signed_1234567890.ipa");
                ("downloadUrl", JStr "http://localhost:3000/output/app_signed_1234567890.ipa");
                ("installUrl", JStr "itms-services://?action=download-manifest&url=http%3A%2F%2Flocalhost%3A3000%2Fapi%2Fmanifest%2Fapp_signed_1234567890.ipa");
                ("size", JNum 0)])]))).
Proof.
  refine (sign_success_without_output Sample.cfg Sample.uuid Sample.now
            Sample.tool_silent Sample.request Sample.ipaFile Sample.certFile
            Sample.provisionFile Sample.uploaded _ _ sample_uploads eq_refl eq_refl
            _ sample_no_directory).
  vm_compute. reflexivity.
Defined.

Lemma sample_signed_no_directory :
  Forall (λ p, ¬ Fs.is_dir (<[Sample.signed := Node RegularFile 4242 Sample.now]>
                              (w_fs Sample.uploaded)) p)
         (inputs Sample.ipaFile Sample.certFile Sample.provisionFile).
Proof. by_evaluation. Defined.


(** C3: the request of the README (three files, no [sessionId] field) on the
    sample deployment.  [destination] runs once per file and draws a fresh
    identifier each time, so the three files land in three directories.
    After the answer, whether the tool succeeded or failed, the three files
    are deleted and the directory of the package is removed, but the
    directories made for the certificate and for the profile still exist. *)
Theorem sign_leaves_session_directories :
  ∀ tool, tool = Sample.tool_signs ∨ tool = Sample.tool_fails →
  let run := post_sign Sample.cfg Sample.uuid Sample.now tool Sample.parts Sample.world in
  let disk := w_fs run.2 in
  (∃ r, run.1 = Ok r)
  ∧ disk !! ["app"; "uploads"; "session-0"; "app.ipa"] = None
  ∧ disk !! ["app"; "uploads"; "session-1"; "cert.p12"] = None
  ∧ disk !! ["app"; "uploads"; "session-2"; "profile.mobileprovision"] = None
  ∧ disk !! ["app"; "uploads"; "session-0"] = None
  ∧ Fs.is_dir disk ["app"; "uploads"; "session-1"]
  ∧ Fs.is_dir disk ["app"; "uploads"; "session-2"].
Proof.
  intros tool [-> | ->]; cbv zeta;
    (split; [eexists; vm_compute; reflexivity|]);
    repeat split; try (vm_compute; reflexivity);
    eexists; split; vm_compute; reflexivity.
Qed.

Lemma sign_leaves_session_directories_witness :
  Fs.is_dir
    (w_fs (post_sign Sample.cfg Sample.uuid Sample.now Sample.tool_signs
             Sample.parts Sample.world).2)
    ["app"; "uploads"; "session-1"].
Proof.
  exact (proj1 (proj2 (proj2 (proj2 (proj2 (proj2
    (sign_leaves_session_directories Sample.tool_signs (or_introl eq_refl)))))))).
Defined.

Lemma sample_published_wf : Fs.wf (w_fs Sample.published).
Proof. apply wf_map_Forall. by_evaluation. Defined.


(** The listing of the sample output directory, newest first. *)
Example list_files_sample :
  (list_files Sample.cfg Sample.published).1
  = Ok (res_json 200 (JObj [
      ("success", JBool true);
      ("files", JArr [
         JObj [("name", JStr "new.ipa"); ("size", JNum 9); ("created", JDate 20);
               ("downloadUrl", JStr "http://localhost:3000/output/new.ipa")];
         JObj [("name", JStr "old.ipa"); ("size", JNum 7); ("created", JDate 10);
               ("downloadUrl", JStr "http://localhost:3000/output/old.ipa")]])])).
Proof. vm_compute. reflexivity. Qed.

Lemma delete_file_component_witness :
  delete_contract Sample.cfg "old.ipa" Sample.published.
Proof.
  refine (delete_file_component Sample.cfg "old.ipa" Sample.published _ _);
    by_evaluation.
Defined.

(** C9 fails as stated: the name [../server.js] (the decoded route parameter
    of [DELETE /api/files/..%2Fserver.js]) names no entry of the output
    directory, yet the answer is the success response, not 404, and the file
    [/app/server.js] outside the output directory is gone. *)
Lemma delete_file_traversal :
  ¬ in_output Sample.cfg (w_fs Sample.published) "../server.js"
  ∧ w_fs Sample.published !! ["app"; "server.js"] = Some (Node RegularFile 8000 5)
  ∧ w_fs (delete_file Sample.cfg "../server.js" Sample.published).2
      !! ["app"; "server.js"] = None
  ∧ ¬ delete_contract Sample.cfg "../server.js" Sample.published.
Proof.
  split; [by_evaluation|]. split; [vm_compute; reflexivity|].
  split; [vm_compute; reflexivity|].
  unfold delete_contract. rewrite decide_False by by_evaluation.
  vm_compute. discriminate.
Qed.



(** A name that carries markup adds a second software-package asset. *)
Example manifest_second_asset :
  ∃ doc,
    res_body (manifest Sample.cfg
      "a.ipa</string></dict><dict><key>kind</key><string>software-package</string><key>url</key><string>http://evil.example/x.ipa")
    = Sent doc
    ∧ Plist.assets doc
      = Some ["http://localhost:3000/output/a.ipa"; "http://evil.example/x.ipa"].
Proof. eexists. split; [reflexivity|]. vm_compute. reflexivity. Qed.

Lemma manifest_without_artifact_witness :
  status (manifest Sample.cfg "missing.ipa") = 200%nat
  ∧ content_type (manifest Sample.cfg "missing.ipa") = "application/xml".
Proof.
  refine (manifest_without_artifact Sample.cfg "missing.ipa" Sample.world _).
  by_evaluation.
Defined.

(** C7 fails as stated: [missing.ipa] names nothing in the output directory
    and the manifest request answers 200. *)
Lemma manifest_missing_artifact :
  ¬ manifest_not_found Sample.cfg "missing.ipa" Sample.world.
Proof.
  intros H. assert (¬ in_output Sample.cfg (w_fs Sample.world) "missing.ipa") as Hn
    by by_evaluation.
  specialize (H Hn). vm_compute in H. discriminate.
Qed.

(** * Further properties of the handlers *)

(** ** Read-only computations *)

Lemma read_only_ret {A} (a : A) : read_only (mret a).
Proof. by intros w. Qed.

Lemma read_only_throw {A} (e : string) : read_only (@throw A e).
Proof. by intros w. Qed.

Lemma read_only_get_fs : read_only get_fs.
Proof. by intros w. Qed.

Lemma read_only_bind {A B} (m : M A) (k : A → M B) :
  read_only m → (∀ a, read_only (k a)) → read_only (m ≫= k).
Proof.
  intros Hm Hk w. unfold mbind, M_bind. specialize (Hm w).
  destruct (m w) as [[a|e] w1]; simpl in *; subst w1; [apply Hk|done].
Qed.

Lemma read_only_try_catch {A} (m : M A) (h : string → M A) :
  read_only m → (∀ e, read_only (h e)) → read_only (try_catch m h).
Proof.
  intros Hm Hh w. unfold try_catch. specialize (Hm w).
  destruct (m w) as [[a|e] w1]; simpl in *; subst w1; [done|apply Hh].
Qed.

Lemma read_only_mapM {A B} (f : A → M B) (xs : list A) :
  (∀ x, read_only (f x)) → read_only (mapM f xs).
Proof.
  intros Hf. induction xs as [|x xs IH]; simpl; [apply read_only_ret|].
  apply read_only_bind; [done|]. intros y.
  apply read_only_bind; [done|]. intros ys. apply read_only_ret.
Qed.

Create HintDb readonly discriminated.
#[global] Hint Resolve read_only_ret read_only_throw read_only_get_fs
  read_only_mapM : readonly.

Ltac read_only :=
  repeat first
    [ progress auto with readonly
    | apply read_only_bind; [|intros ?]
    | apply read_only_try_catch; [|intros ?]
    | match goal with
      | |- read_only (match ?x with _ => _ end) => destruct x
      end ].

Lemma read_only_statSync p : read_only (statSync p).
Proof. unfold statSync. read_only. Qed.

Lemma read_only_readdirSync d : read_only (readdirSync d).
Proof. unfold readdirSync. read_only. Qed.

Lemma read_only_existsSync p : read_only (existsSync p).
Proof. unfold existsSync. read_only. Qed.

#[global] Hint Resolve read_only_statSync read_only_readdirSync
  read_only_existsSync : readonly.

Section Registry.

Context (cfg : Config).

(** X1: [GET /api/files] changes nothing, whatever it answers: the disk,
    the identifier counter and the command log come back as they were. *)
Theorem list_files_read_only (w : World) : (list_files cfg w).2 = w.
Proof.
  revert w. change (read_only (list_files cfg)).
  unfold list_files, listing, file_info. read_only.
  apply read_only_mapM. intros file. read_only.
Qed.

(** X2: without an output directory [GET /api/files] answers 500 with
    [success: false] and the message of the failed [readdirSync]: [ENOENT]
    when nothing is there, [ENOTDIR] when a regular file is. *)
Theorem list_files_without_directory (w : World) :
  ¬ Fs.is_dir (w_fs w) (OUTPUT_DIR cfg) →
  (list_files cfg w).1
  = Ok (mkResponse 500 "application/json"
          (Json (JObj [
             ("success", JBool false);
             ("error", JStr ((if decide (is_Some (w_fs w !! OUTPUT_DIR cfg))
                              then "ENOTDIR: not a directory, scandir '"
                              else "ENOENT: no such file or directory, scandir '")
                             +:+ Path.show (OUTPUT_DIR cfg) +:+ "'"))]))).
Proof.
  intros Hnd. unfold list_files, try_catch, listing.
  unfold mbind at 2, M_bind at 1.
  cbv [readdirSync mbind M_bind get_fs].
  destruct (w_fs w !! OUTPUT_DIR cfg) as [[[|] sz bt]|] eqn:Hd.
  - by rewrite decide_True by done.
  - destruct Hnd. by eexists.
  - by rewrite decide_False by (by intros [? ?]).
Qed.

(** What [DELETE /api/files/:filename] does, by what is at the resolved
    path. *)
Lemma delete_file_run (filename : string) (w : World) :
  delete_file cfg filename w
  = match w_fs w !! Path.join (OUTPUT_DIR cfg) filename with
    | None => (Ok (failure 404 "File not found"), w)
    | Some (Node RegularFile _ _) =>
        (Ok deleted,
         mkWorld (delete (Path.join (OUTPUT_DIR cfg) filename) (w_fs w))
                 (w_uuid w) (w_execs w))
    | Some (Node Directory _ _) =>
        (Ok (failure 500 ("EISDIR: illegal operation on a directory, unlink '"
                          +:+ Path.show (Path.join (OUTPUT_DIR cfg) filename) +:+ "'")), w)
    end.
Proof.
  unfold delete_file, try_catch.
  unfold mbind at 1, M_bind at 1. rewrite existsSync_run.
  destruct (w_fs w !! Path.join (OUTPUT_DIR cfg) filename) as [[[|] sz bt]|] eqn:Hp.
  - rewrite bool_decide_true by done. simpl.
    unfold mbind, M_bind. rewrite unlinkSync_run; [done|]. by eexists.
  - rewrite bool_decide_true by done. simpl.
    cbv [unlinkSync mbind M_bind get_fs]. by rewrite Hp.
  - by rewrite bool_decide_false by (by intros [? ?]).
Qed.

(** X3: a delete request touches nothing but the path its file name
    resolves to: every other path of the disk is as before, no identifier
    is drawn and no command is run.  This holds for every file name. *)
Theorem delete_file_frame (filename : string) (w : World) (q : Path.t) :
  q ≠ Path.join (OUTPUT_DIR cfg) filename →
  let w' := (delete_file cfg filename w).2 in
  w_fs w' !! q = w_fs w !! q ∧ w_uuid w' = w_uuid w ∧ w_execs w' = w_execs w.
Proof.
  intros Hq. rewrite delete_file_run.
  destruct (w_fs w !! Path.join (OUTPUT_DIR cfg) filename) as [[[|] sz bt]|];
    simpl; [|done..].
  by rewrite lookup_delete_ne.
Qed.


(** X5: deleting is not repeatable: once a delete request has answered
    success, the same request on the resulting disk answers 404. *)
Theorem delete_file_twice (filename : string) (w : World) :
  (delete_file cfg filename w).1 = Ok deleted →
  (delete_file cfg filename (delete_file cfg filename w).2).1
  = Ok (mkResponse 404 "application/json"
          (Json (JObj [("success", JBool false); ("error", JStr "File not found")]))).
Proof.
  rewrite (delete_file_run filename w).
  destruct (w_fs w !! Path.join (OUTPUT_DIR cfg) filename) as [[[|] sz bt]|];
    simpl; [|done..].
  intros _. rewrite delete_file_run. simpl. by rewrite lookup_delete_eq.
Qed.

End Registry.

(** ** Names and links of a signed artifact *)

Lemma list_ascii_app (a b : string) :
  String.list_ascii_of_string (a +:+ b)
  = String.list_ascii_of_string a ++ String.list_ascii_of_string b.
Proof.
  induction a as [|c a IH]; [done|]. rewrite app_cons. simpl. by rewrite IH.
Qed.

Lemma app_inj_r (a b c : string) : a +:+ c = b +:+ c → a = b.
Proof.
  intros H. apply (f_equal String.list_ascii_of_string) in H.
  rewrite !list_ascii_app in H. apply app_inv_tail in H.
  apply (f_equal String.string_of_list_ascii) in H.
  by rewrite !String.string_of_list_ascii_of_string in H.
Qed.

Lemma endsWith_app (a b : string) : Str.endsWith (a +:+ b) b = true.
Proof.
  unfold Str.endsWith. apply bool_decide_eq_true.
  rewrite list_ascii_app. by apply suffix_app_r.
Qed.

Lemma split_slash_segments (s seg : string) :
  seg ∈ Path.split_slash s → ¬ Str.mem "/" seg.
Proof.
  unfold Str.mem. revert seg. induction s as [|c s IH]; intros seg; simpl.
  - intros ->%list_elem_of_singleton. simpl. apply not_elem_of_nil.
  - destruct (Ascii.eqb_spec c "/") as [->|Hc].
    + intros [->|Hin]%elem_of_cons; [simpl; apply not_elem_of_nil|by apply IH].
    + destruct (Path.split_slash s) as [|seg0 segs] eqn:Hs.
      * intros ->%list_elem_of_singleton. simpl.
        rewrite not_elem_of_cons. split; [done|apply not_elem_of_nil].
      * intros [->|Hin]%elem_of_cons.
        -- simpl. rewrite not_elem_of_cons. split; [done|]. apply IH. by left.
        -- apply IH. by right.
Qed.

Lemma basename_no_slash (s : string) : ¬ Str.mem "/" (Path.basename s).
Proof.
  unfold Path.basename.
  destruct (last _) as [seg|] eqn:Hl; simpl.
  - apply last_Some in Hl as [l' Hl].
    apply (split_slash_segments s).
    assert (seg ∈ filter (λ seg, seg ≠ "") (Path.split_slash s)) as Hin.
    { rewrite Hl. apply elem_of_app. right. by left. }
    by apply list_elem_of_filter in Hin as [_ ?].
  - unfold Str.mem. simpl. apply not_elem_of_nil.
Qed.

Lemma split_last_dot_app (s a e : string) :
  Path.split_last_dot s = Some (a, e) → s = a +:+ e.
Proof.
  revert a e. induction s as [|c s IH]; intros a e; simpl; [done|].
  destruct (Path.split_last_dot s) as [[a' e']|].
  - intros [= <- <-]. rewrite app_cons. f_equal. by apply IH.
  - destruct (Ascii.eqb c "."); [|done]. by intros [= <- <-].
Qed.

Lemma parse_name_no_slash (s : string) : ¬ Str.mem "/" (Path.parse_name s).
Proof.
  unfold Path.parse_name, Path.name_ext.
  pose proof (basename_no_slash s) as Hb.
  destruct (Path.split_last_dot (Path.basename s)) as [[a e]|] eqn:Hd; [|done].
  case_bool_decide; [done|]. simpl.
  apply split_last_dot_app in Hd. rewrite Hd in Hb.
  intros Ha. apply Hb, mem_app. by left.
Qed.

Lemma pretty_N_go_chars (x : N) (s : string) (c : ascii) :
  Str.mem c (pretty_N_go x s) → Str.mem c s ∨ Str.mem c "0123456789".
Proof.
  revert s. induction (N.lt_wf_0 x) as [x _ IH]; intros s.
  assert (x = 0 ∨ 0 < x)%N as [->|Hx] by lia.
  - rewrite pretty_N_go_0. by left.
  - rewrite pretty_N_go_step by done.
    intros [Hc|Hc]%IH; [|by right|by apply N.div_lt].
    unfold Str.mem in Hc. simpl in Hc. apply elem_of_cons in Hc as [->|Hc]; [|by left].
    right. unfold pretty_N_char, Str.mem. simpl.
    repeat case_match; set_solver.
Qed.

Lemma pretty_Z_chars (z : Z) (c : ascii) :
  Str.mem c (pretty z) → Str.mem c "-0123456789".
Proof.
  assert (∀ p, Str.mem c (pretty (Npos p)) → Str.mem c "0123456789") as Hpos.
  { intros p. unfold pretty, pretty_N. rewrite decide_False by done.
    intros [H|H]%pretty_N_go_chars; [|done].
    unfold Str.mem in H. simpl in H. by apply elem_of_nil in H. }
  unfold pretty, pretty_Z. destruct z as [|p|p].
  - unfold Str.mem. simpl. set_solver.
  - intros H%Hpos. unfold Str.mem in *. simpl in *. set_solver.
  - rewrite mem_app. intros [H|H%Hpos].
    + unfold Str.mem in *. simpl in *. set_solver.
    + unfold Str.mem in *. simpl in *. set_solver.
Qed.

Lemma outputFileName_component (now : Z) (ipaFile : UploadedFile) :
  Path.component (outputFileName now ipaFile).
Proof.
  unfold outputFileName.
  assert (Str.mem "_" (Path.parse_name (originalname ipaFile)
                       +:+ "_signed_" +:+ pretty now +:+ ".ipa")) as Hu.
  { apply mem_app. right. apply mem_app. left. unfold Str.mem. simpl. set_solver. }
  repeat split.
  - intros H. rewrite H in Hu. unfold Str.mem in Hu. simpl in Hu. set_solver.
  - intros H. rewrite H in Hu. unfold Str.mem in Hu. simpl in Hu. set_solver.
  - intros H. rewrite H in Hu. unfold Str.mem in Hu. simpl in Hu. set_solver.
  - rewrite !mem_app. intros [H|[H|[H|H]]].
    + by apply parse_name_no_slash in H.
    + unfold Str.mem in H. simpl in H. set_solver.
    + apply pretty_Z_chars in H. unfold Str.mem in H. simpl in H. set_solver.
    + unfold Str.mem in H. simpl in H. set_solver.
Qed.

(** X6: whatever the uploaded package is called, slashes and dots
    included, the output path is an entry directly inside the output
    directory, and its name ends with [".ipa"], so the listing's filter
    keeps it. *)
Theorem outputPath_in_output_dir (cfg : Config) (now : Z) (ipaFile : UploadedFile) :
  outputPath cfg now ipaFile = OUTPUT_DIR cfg ++ [outputFileName now ipaFile]
  ∧ Str.endsWith (outputFileName now ipaFile) ".ipa" = true.
Proof.
  split.
  - unfold outputPath. apply join_component, outputFileName_component.
  - unfold outputFileName. rewrite <-!app_assoc_str.
    apply endsWith_app.
Qed.

(** X7: the time stamp tells the outputs of one package apart: two signs of
    the same upload get the same output name only at the same
    millisecond. *)
Theorem outputFileName_time (now now' : Z) (ipaFile : UploadedFile) :
  outputFileName now ipaFile = outputFileName now' ipaFile ↔ now = now'.
Proof.
  split; [|by intros ->]. unfold outputFileName. intros H.
  do 2 apply String.app_inj in H. apply app_inj_r in H.
  by apply (inj pretty) in H.
Qed.

Lemma hex_digit_unreserved (n : nat) : Uri.unreserved (Uri.hex_digit n) = true.
Proof. do 17 (destruct n as [|n]; [reflexivity|]). reflexivity. Qed.

Lemma encodeURIComponent_chars (s : string) (c : ascii) :
  Str.mem c (Uri.encodeURIComponent s) → Uri.unreserved c = true ∨ c = "%"%char.
Proof.
  induction s as [|x s IH]; simpl.
  - unfold Str.mem. simpl. by intros ?%elem_of_nil.
  - rewrite mem_app. intros [H|H]; [|by apply IH].
    destruct (Uri.unreserved x) eqn:Hx.
    + unfold Str.mem in H. simpl in H.
      apply list_elem_of_singleton in H as ->. by left.
    + unfold Uri.escape, Str.mem in H. simpl in H.
      rewrite !elem_of_cons, elem_of_nil in H.
      destruct H as [->|[->|[->|[]]]]; [by right|left..];
        apply hex_digit_unreserved.
Qed.

(** X8: the [url] parameter of the install link is made of letters, digits,
    the marks [-_.!~*'()] and percent escapes only, for every domain and
    every file name, so neither can add a parameter or a fragment to the
    link. *)
Theorem installUrl_parameter (cfg : Config) (name : string) :
  ∃ parameter,
    installUrl cfg name
    = "itms-services://?action=download-manifest&url=" +:+ parameter
    ∧ ∀ c, Str.mem c parameter → Uri.unreserved c = true ∨ c = "%"%char.
Proof.
  eexists. split; [reflexivity|]. apply encodeURIComponent_chars.
Qed.

(** ** The file filter *)

Lemma split_last_dot_None (s : string) :
  ¬ Str.mem "." s → Path.split_last_dot s = None.
Proof.
  unfold Str.mem. induction s as [|c s IH]; simpl; [done|].
  rewrite not_elem_of_cons. intros [Hc Hs]. rewrite IH by done.
  by destruct (Ascii.eqb_spec c ".").
Qed.

Lemma split_last_dot_ext (n e : string) :
  ¬ Str.mem "." e →
  Path.split_last_dot (n +:+ "." +:+ e) = Some (n, "." +:+ e).
Proof.
  intros He. induction n as [|c n IH].
  - change ("" +:+ "." +:+ e) with (String "." e). simpl.
    by rewrite split_last_dot_None.
  - rewrite app_cons. simpl. by rewrite IH.
Qed.

Lemma toLowerCase_mem (c : ascii) (s : string) :
  Str.mem c s → Str.mem (Str.lower_ascii c) (Str.toLowerCase s).
Proof.
  unfold Str.mem. induction s as [|x s IH]; simpl; [by intros ?%elem_of_nil|].
  rewrite !elem_of_cons. intros [->|H]; [by left|right; by apply IH].
Qed.

Lemma toLowerCase_app (a b : string) :
  Str.toLowerCase (a +:+ b) = Str.toLowerCase a +:+ Str.toLowerCase b.
Proof.
  induction a as [|c a IH]; [done|]. rewrite app_cons. simpl.
  by rewrite IH.
Qed.

Lemma split_slash_chars (s seg : string) (c : ascii) :
  seg ∈ Path.split_slash s → Str.mem c seg → Str.mem c s.
Proof.
  unfold Str.mem. revert seg. induction s as [|x s IH]; intros seg; simpl.
  - by intros ->%list_elem_of_singleton.
  - destruct (Ascii.eqb_spec x "/") as [->|Hx].
    + intros [->|Hin]%elem_of_cons; simpl.
      * by intros ?%elem_of_nil.
      * intros Hc. right. by eapply IH.
    + destruct (Path.split_slash s) as [|seg0 segs] eqn:Hs.
      * intros ->%list_elem_of_singleton. simpl.
        rewrite !elem_of_cons. intros [->|?%elem_of_nil]; [by left|done].
      * intros [->|Hin]%elem_of_cons; simpl.
        -- rewrite !elem_of_cons. intros [->|Hc]; [by left|right].
           apply (IH seg0); [by left|done].
        -- intros Hc. right. apply (IH seg); [by right|done].
Qed.

Lemma basename_chars (s : string) (c : ascii) :
  Str.mem c (Path.basename s) → Str.mem c s.
Proof.
  unfold Path.basename.
  destruct (last _) as [seg|] eqn:Hl; simpl.
  - apply last_Some in Hl as [l' Hl].
    assert (seg ∈ filter (λ seg, seg ≠ "") (Path.split_slash s)) as Hin.
    { rewrite Hl. apply elem_of_app. right. by left. }
    apply list_elem_of_filter in Hin as [_ Hin]. by apply split_slash_chars.
  - unfold Str.mem. simpl. by intros ?%elem_of_nil.
Qed.

Section Filter.

Context (w : World).

(** X9: the file filter lets a file through when its name is a non-empty
    base name, a dot, and an extension that is [ipa], [p12] or
    [mobileprovision] in any mix of upper and lower case; the field the file
    came in plays no part. *)
Theorem fileFilter_accepts (n e : string) :
  n ≠ "" → ¬ Str.mem "/" n →
  Str.toLowerCase e ∈ ["ipa"; "p12"; "mobileprovision"] →
  fileFilter (n +:+ "." +:+ e) w = (Ok tt, w).
Proof.
  intros Hn Hslash He.
  assert (¬ Str.mem "." e ∧ ¬ Str.mem "/" e ∧ e ≠ "") as (Hdot & Hsl & Hne).
  { repeat split.
    - intros H%toLowerCase_mem. revert H. change (Str.lower_ascii ".") with "."%char.
      rewrite !elem_of_cons, elem_of_nil in He.
      destruct He as [->|[->|[->|[]]]]; unfold Str.mem; simpl; set_solver.
    - intros H%toLowerCase_mem. revert H. change (Str.lower_ascii "/") with "/"%char.
      rewrite !elem_of_cons, elem_of_nil in He.
      destruct He as [->|[->|[->|[]]]]; unfold Str.mem; simpl; set_solver.
    - intros ->. simpl in He. set_solver. }
  assert (Path.extname (n +:+ "." +:+ e) = "." +:+ e) as Hext.
  { unfold Path.extname. rewrite basename_plain.
    - unfold Path.name_ext. rewrite split_last_dot_ext by done.
      rewrite bool_decide_false; [done|]. intros [?|H]; [done|].
      apply (f_equal String.list_ascii_of_string) in H.
      rewrite !list_ascii_app in H. apply (f_equal length) in H.
      rewrite !length_app in H. simpl in H.
      destruct n; [done|]. destruct e; [done|]. simpl in H. lia.
    - by destruct n.
    - rewrite !mem_app. intros [?|[H|?]]; [done| |done].
      unfold Str.mem in H. simpl in H. set_solver. }
  unfold fileFilter. rewrite Hext, toLowerCase_app.
  change (Str.toLowerCase ".") with ".".
  rewrite bool_decide_true; [done|].
  unfold allowedExtensions.
  rewrite !elem_of_cons, elem_of_nil in He |- *.
  destruct He as [->|[->|[->|[]]]]; auto.
Qed.

(** X10: the file filter throws its [Invalid file type] error, which names
    the three extensions, for every name without a dot and for every name
    that is a dot followed by dot-free text (a hidden file such as
    [.ipa]). *)
Theorem fileFilter_rejects (s : string) :
  ¬ Str.mem "." s
  ∨ (∃ e, s = "." +:+ e ∧ ¬ Str.mem "." e ∧ ¬ Str.mem "/" e) →
  fileFilter s w
  = (Throw "Invalid file type. Allowed: .ipa, .p12, .mobileprovision", w).
Proof.
  intros H.
  assert (Path.extname s = "") as Hext.
  { unfold Path.extname, Path.name_ext. destruct H as [Hd|(e & -> & Hd & Hs)].
    - rewrite split_last_dot_None; [done|].
      intros Hb. by apply Hd, basename_chars.
    - rewrite basename_plain.
      + change ("." +:+ e) with ("" +:+ "." +:+ e).
        rewrite split_last_dot_ext by done.
        by rewrite bool_decide_true by (by left).
      + done.
      + rewrite mem_app. intros [H|?]; [|done].
        unfold Str.mem in H. simpl in H. set_solver. }
  unfold fileFilter. by rewrite Hext.
Qed.

End Filter.

(** ** The upload intake *)

Lemma mkdir_p_keeps (now : Z) (p q : Path.t) (fs : FS) (n : node) :
  fs !! q = Some n → Fs.mkdir_p now p fs !! q = Some n.
Proof.
  unfold Fs.mkdir_p. generalize (Fs.ancestors p). intros l.
  revert fs. induction l as [|a l IH]; intros fs Hq; simpl; [done|].
  apply IH. destruct (fs !! a) eqn:Ha; [done|].
  rewrite lookup_insert_ne; [done|]. intros ->. congruence.
Qed.

Lemma mkdirSync_p_run (now : Z) (p : Path.t) (w : World) :
  mkdirSync_p now p w
  = if existsb (Fs.is_fileb (w_fs w)) (Fs.ancestors p)
    then (Throw ("ENOTDIR: not a directory, mkdir '" +:+ Path.show p +:+ "'"), w)
    else (Ok tt, mkWorld (Fs.mkdir_p now p (w_fs w)) (w_uuid w) (w_execs w)).
Proof.
  cbv [mkdirSync_p mbind M_bind get_fs set_fs].
  by destruct (existsb _ _).
Qed.

Lemma maxCount_fields (field : string) :
  maxCount field
  = if decide (field ∈ ["ipa"; "certificate"; "provision"]) then 1%nat else 0%nat.
Proof.
  unfold maxCount, fields. cbn [List.find fst snd].
  destruct (String.eqb_spec "ipa" field) as [<-|H1]; [done|].
  destruct (String.eqb_spec "certificate" field) as [<-|H2]; [done|].
  destruct (String.eqb_spec "provision" field) as [<-|H3]; [done|].
  rewrite decide_False; [done|].
  rewrite !elem_of_cons, elem_of_nil. naive_solver.
Qed.

Lemma is_file_insert (fs : FS) (p q : Path.t) (sz : N) (bt : Z) :
  Fs.is_file fs q → Fs.is_file (<[p := Node RegularFile sz bt]> fs) q.
Proof.
  intros (n & Hn & Hk). destruct (decide (p = q)) as [->|Hne].
  - eexists. by rewrite lookup_insert_eq.
  - exists n. by rewrite lookup_insert_ne.
Qed.

Section Intake.

Context (cfg : Config) (uuid : nat → string) (now : Z)
        (tool : string → FS → ExecResult * FS).

(** What [destination] leaves: the entries that were there, and the
    command log. *)
Lemma destination_keeps (body : gmap string string) (w : World) :
  let run := destination cfg uuid now body w in
  (∀ q n, w_fs w !! q = Some n → w_fs run.2 !! q = Some n)
  ∧ w_execs run.2 = w_execs w.
Proof.
  unfold destination.
  assert (∀ (sid : string) (w0 : World),
    let run := (existsSync (Path.join (UPLOAD_DIR cfg) sid)
                ≫= λ ex, when (negb ex) (mkdirSync_p now (Path.join (UPLOAD_DIR cfg) sid));;
                         mret (Path.join (UPLOAD_DIR cfg) sid)) w0 in
    (∀ q n, w_fs w0 !! q = Some n → w_fs run.2 !! q = Some n)
    ∧ w_execs run.2 = w_execs w0) as Hrest.
  { intros sid w0. cbv zeta. unfold mbind, M_bind. rewrite existsSync_run.
    destruct (bool_decide _); cbn [negb when]; [done|].
    rewrite mkdirSync_p_run. destruct (existsb _ _); cbn [fst snd w_fs w_execs]; [done|].
    split; [|done]. intros q n. apply mkdir_p_keeps. }
  cbv zeta. destruct (Str.truthy (body !! "sessionId")).
  - apply (Hrest (default "" (body !! "sessionId")) w).
  - apply (Hrest (uuid (w_uuid w)) (mkWorld (w_fs w) (S (w_uuid w)) (w_execs w))).
Qed.

Lemma multer_part_keeps (req req' : Request) (p : Part) (w w' : World) :
  intake_ok req (w_fs w) →
  multer_part cfg uuid now req p w = (Ok req', w') →
  intake_ok req' (w_fs w').
Proof.
  intros (files & Hf & Hinv). destruct p as [name value|field original size]; simpl.
  { intros [= <- <-]. exists files. by split. }
  case_bool_decide; [intros [= <- <-]; exists files; by split|].
  rewrite maxCount_fields. unfold stored. rewrite Hf. simpl.
  case_bool_decide as Hcount; [done|].
  case_decide as Hfield; [|simpl in Hcount; lia].
  assert (default [] (files !! field) = []) as Hempty.
  { destruct (files !! field) as [l|] eqn:Hl; [|done].
    destruct (Hinv _ _ Hl) as (_ & f & -> & _). simpl in Hcount. lia. }
  rewrite Hempty.
  unfold mbind at 1, M_bind at 1, fileFilter.
  destruct (bool_decide _); [|done]. simpl.
  unfold mbind at 1, M_bind at 1.
  destruct (destination_keeps (req_body req) w) as [Hkeep _].
  destruct (destination cfg uuid now (req_body req) w) as [[dir|e] w1]; [|done].
  simpl in Hkeep. cbv [mbind M_bind get_fs set_fs mret M_ret]. simpl.
  intros [= <- <-]. simpl. eexists. split; [done|].
  intros field' l. destruct (decide (field = field')) as [<-|Hne].
  - rewrite lookup_insert_eq. intros [= <-]. split; [done|].
    eexists. split; [done|]. simpl. eexists. by rewrite lookup_insert_eq.
  - rewrite lookup_insert_ne by done. intros Hl.
    destruct (Hinv _ _ Hl) as (Hin & f & -> & n & Hn & Hk).
    split; [done|]. exists f. split; [done|].
    apply is_file_insert. exists n. split; [by apply Hkeep|done].
Qed.

Lemma multer_part_no_exec (req : Request) (p : Part) (w : World) :
  w_execs (multer_part cfg uuid now req p w).2 = w_execs w.
Proof.
  destruct p as [name value|field original size]; simpl; [done|].
  destruct (bool_decide _); [done|]. destruct (bool_decide _); [done|].
  unfold mbind at 1, M_bind at 1, fileFilter.
  destruct (bool_decide _); [|done]. simpl.
  unfold mbind at 1, M_bind at 1.
  destruct (destination_keeps (req_body req) w) as [_ Hex].
  destruct (destination cfg uuid now (req_body req) w) as [[dir|e] w1]; by simpl in *.
Qed.

Lemma multer_parts_keeps (ps : list Part) (req0 req : Request) (w w' : World) :
  intake_ok req0 (w_fs w) →
  multer_parts cfg uuid now req0 ps w = (Ok req, w') →
  intake_ok req (w_fs w').
Proof.
  revert w req0. induction ps as [|p ps IH]; intros w req0 Hinv; simpl.
  - by intros [= <- <-].
  - unfold mbind at 1, M_bind at 1.
    destruct (multer_part cfg uuid now req0 p w) as [[req1|e] w1] eqn:Hp; [|done].
    apply IH. by eapply multer_part_keeps.
Qed.

Lemma intake_ok_empty (fs : FS) : intake_ok (mkRequest ∅ (Some ∅)) fs.
Proof. exists ∅. split; [done|]. intros field l. by rewrite lookup_empty. Qed.

Lemma upload_no_exec (ps : list Part) (w : World) :
  w_execs (upload cfg uuid now ps w).2 = w_execs w.
Proof.
  unfold upload. generalize (mkRequest ∅ (Some ∅)). revert w.
  induction ps as [|p ps IH]; intros w req0; simpl; [done|].
  unfold mbind, M_bind. pose proof (multer_part_no_exec req0 p w) as Hex.
  destruct (multer_part cfg uuid now req0 p w) as [[req1|e] w1]; simpl in *.
  - fold (@mbind M _). rewrite <-Hex. apply IH.
  - done.
Qed.

(** X11: when the intake gets through a multipart body, the request it
    hands to the handler holds files under the fields [ipa], [certificate]
    and [provision] only, exactly one per field that is present, each a
    regular file on the disk; and the intake has run no command. *)
Theorem upload_intake (ps : list Part) (w w' : World) (req : Request) :
  upload cfg uuid now ps w = (Ok req, w') →
  intake_ok req (w_fs w') ∧ w_execs w' = w_execs w.
Proof.
  intros Hup. split.
  - unfold upload in Hup. eapply multer_parts_keeps; [|exact Hup].
    apply intake_ok_empty.
  - pose proof (upload_no_exec ps w) as H. by rewrite Hup in H.
Qed.


End Intake.

(** ** The signing pipeline *)

Lemma file_not_dir (fs : FS) (p : Path.t) : Fs.is_file fs p → ¬ Fs.is_dir fs p.
Proof. intros (n & Hn & Hk) (n' & Hn' & Hk'). congruence. Qed.

Section Pipeline.

Context (cfg : Config) (uuid : nat → string) (now : Z)
        (tool : string → FS → ExecResult * FS).

Lemma sign_answer_ok (ipaFile : UploadedFile) (r : ExecResult) (w : World) :
  ∃ resp, sign_answer cfg now ipaFile r w = (Ok resp, w)
    ∧ status resp ∈ [200%nat; 500%nat].
Proof.
  destruct (exec_error r) as [message|] eqn:Herr.
  - unfold sign_answer. rewrite Herr. eexists. split; [reflexivity|].
    simpl. set_solver.
  - rewrite sign_answer_success by done. eexists. split; [reflexivity|].
    simpl. set_solver.
Qed.

Lemma sign_sync_absent (req : Request) (w : World) :
  absent req "ipa" ∨ absent req "certificate" ∨ absent req "provision" →
  sign_sync cfg uuid now req w
  = (Ok (Respond missing_files), mkWorld (w_fs w) (S (w_uuid w)) (w_execs w)).
Proof.
  unfold absent. intros H.
  unfold sign_sync, try_catch, uuidv4, mbind, M_bind. simpl.
  destruct (req_files req) as [files|]; [|done]. simpl in H.
  destruct (files !! "ipa"); [|done].
  destruct (files !! "certificate"); [|done].
  destruct (files !! "provision"); [|done].
  by destruct H as [?|[?|?]].
Qed.


Lemma sign_intake (req : Request) (w : World) :
  (∀ cmd fs p, Fs.is_file fs p → ¬ Fs.is_dir (tool cmd fs).2 p) →
  intake_ok req (w_fs w) →
  ∃ resp w', sign cfg uuid now tool req w = (Ok resp, w')
    ∧ status resp ∈ [200%nat; 400%nat; 500%nat].
Proof.
  intros Htool (files & Hf & Hinv).
  destruct (files !! "ipa") as [li|] eqn:Hi; last first.
  { unfold sign, mbind, M_bind. rewrite sign_sync_absent.
    - do 2 eexists. split; [reflexivity|]. simpl. set_solver.
    - left. unfold absent. by rewrite Hf. }
  destruct (files !! "certificate") as [lc|] eqn:Hc; last first.
  { unfold sign, mbind, M_bind. rewrite sign_sync_absent.
    - do 2 eexists. split; [reflexivity|]. simpl. set_solver.
    - right. left. unfold absent. by rewrite Hf. }
  destruct (files !! "provision") as [lp|] eqn:Hp; last first.
  { unfold sign, mbind, M_bind. rewrite sign_sync_absent.
    - do 2 eexists. split; [reflexivity|]. simpl. set_solver.
    - right. right. unfold absent. by rewrite Hf. }
  destruct (Hinv _ _ Hi) as (_ & fi & -> & Hfi).
  destruct (Hinv _ _ Hc) as (_ & fc & -> & Hfc).
  destruct (Hinv _ _ Hp) as (_ & fp & -> & Hfp).
  assert (uploads req fi fc fp) as Hup.
  { exists files. rewrite Hi, Hc, Hp. by repeat split. }
  destruct (tool (zsignCmd cfg now (req_body req !! "password")
                    (req_body req !! "bundleId") fi fc fp) (w_fs w))
    as [r fs'] eqn:Hrun.
  assert (Forall (λ p, ¬ Fs.is_dir fs' p) (inputs fi fc fp)) as Hnd.
  { unfold inputs. repeat constructor.
    - pose proof (Htool (zsignCmd cfg now (req_body req !! "password")
                           (req_body req !! "bundleId") fi fc fp) _ _ Hfi) as H.
      by rewrite Hrun in H.
    - pose proof (Htool (zsignCmd cfg now (req_body req !! "password")
                           (req_body req !! "bundleId") fi fc fp) _ _ Hfc) as H.
      by rewrite Hrun in H.
    - pose proof (Htool (zsignCmd cfg now (req_body req !! "password")
                           (req_body req !! "bundleId") fi fc fp) _ _ Hfp) as H.
      by rewrite Hrun in H. }
  rewrite (sign_run _ _ _ _ _ _ _ _ _ _ _ Hup Hrun Hnd).
  match goal with |- context [sign_answer _ _ _ _ ?w1] =>
    destruct (sign_answer_ok fi r w1) as (resp & -> & Hst) end.
  do 2 eexists. split; [reflexivity|]. set_solver.
Qed.


End Pipeline.

(** ** Start-up *)

Lemma mkdir_p_fold_other (now : Z) (l : list Path.t) (fs : FS) (q : Path.t) :
  q ∉ l →
  foldl (λ acc a, match acc !! a with
                  | Some _ => acc
                  | None => <[a := Node Directory 0 now]> acc
                  end) fs l !! q = fs !! q.
Proof.
  revert fs. induction l as [|a l IH]; intros fs Hq; simpl; [done|].
  apply not_elem_of_cons in Hq as [Hne Hq]. rewrite IH by done.
  destruct (fs !! a); [done|]. by rewrite lookup_insert_ne.
Qed.

Lemma ancestors_snoc (p : Path.t) :
  Fs.ancestors p = map (λ i, take i p) (seq 0 (length p)) ++ [p].
Proof.
  unfold Fs.ancestors. rewrite seq_S, map_app. simpl.
  by rewrite firstn_all.
Qed.

Lemma mkdir_p_makes (now : Z) (p : Path.t) (fs : FS) :
  fs !! p = None → Fs.mkdir_p now p fs !! p = Some (Node Directory 0 now).
Proof.
  intros Hp. unfold Fs.mkdir_p. rewrite ancestors_snoc, foldl_app. simpl.
  rewrite mkdir_p_fold_other.
  - rewrite Hp. by rewrite lookup_insert_eq.
  - intros (i & Hi & Hin)%list_elem_of_In%in_map_iff.
    apply in_seq in Hin. apply (f_equal length) in Hi.
    rewrite length_take in Hi. lia.
Qed.

Lemma mkdir_p_file (now : Z) (p q : Path.t) (fs : FS) :
  Fs.is_file (Fs.mkdir_p now p fs) q → Fs.is_file fs q.
Proof.
  unfold Fs.mkdir_p. generalize (Fs.ancestors p). intros l.
  revert fs. induction l as [|a l IH]; intros fs; simpl; [done|].
  intros H%IH. destruct (fs !! a) eqn:Ha; [done|].
  destruct H as (n & Hn & Hk). destruct (decide (a = q)) as [->|Hne].
  - rewrite lookup_insert_eq in Hn. by simplify_eq.
  - rewrite lookup_insert_ne in Hn by done. by exists n.
Qed.

Lemma elem_of_ancestors_self (p : Path.t) : p ∈ Fs.ancestors p.
Proof. rewrite ancestors_snoc. apply elem_of_app. right. by left. Qed.

(** One directory of the start-up loop. *)
Lemma ensure_dir_run (now : Z) (d : Path.t) (w : World) :
  (∀ q, q ∈ Fs.ancestors d → ¬ Fs.is_file (w_fs w) q) →
  ∃ w', (existsSync d ≫= λ ex, when (negb ex) (mkdirSync_p now d)) w = (Ok tt, w')
    ∧ Fs.is_dir (w_fs w') d
    ∧ (∀ q n, w_fs w !! q = Some n → w_fs w' !! q = Some n)
    ∧ (∀ q, Fs.is_file (w_fs w') q → Fs.is_file (w_fs w) q).
Proof.
  intros Hnf. unfold mbind, M_bind. rewrite existsSync_run.
  destruct (w_fs w !! d) as [[[|] sz bt]|] eqn:Hd.
  - destruct (Hnf d (elem_of_ancestors_self d)). by eexists.
  - rewrite bool_decide_true by done. exists w. repeat split; try done.
    by eexists.
  - rewrite bool_decide_false by (by intros [? ?]). cbn [negb when].
    rewrite mkdirSync_p_run.
    assert (existsb (Fs.is_fileb (w_fs w)) (Fs.ancestors d) = false) as ->.
    { apply not_true_is_false. intros (q & Hq & Hf)%existsb_exists.
      apply (Hnf q); [by apply list_elem_of_In|].
      unfold Fs.is_fileb in Hf.
      destruct (w_fs w !! q) as [[[|] ? ?]|] eqn:E; [|done..]. by eexists. }
    eexists. split; [reflexivity|]. simpl. repeat split.
    + eexists. split; [by apply mkdir_p_makes|done].
    + intros q n. apply mkdir_p_keeps.
    + intros q. apply mkdir_p_file.
Qed.

(** X15: on a disk where no regular file sits at or above the upload and
    the output directory, the start-up code succeeds; afterwards both are
    directories, every entry that was there is unchanged, and running the
    start-up code again changes nothing. *)
Theorem ensure_dirs_creates (cfg : Config) (now : Z) (w : World) :
  (∀ q, q ∈ Fs.ancestors (UPLOAD_DIR cfg) ++ Fs.ancestors (OUTPUT_DIR cfg) →
        ¬ Fs.is_file (w_fs w) q) →
  ∃ w', ensure_dirs cfg now w = (Ok tt, w')
    ∧ Fs.is_dir (w_fs w') (UPLOAD_DIR cfg)
    ∧ Fs.is_dir (w_fs w') (OUTPUT_DIR cfg)
    ∧ (∀ q n, w_fs w !! q = Some n → w_fs w' !! q = Some n)
    ∧ ensure_dirs cfg now w' = (Ok tt, w').
Proof.
  intros Hnf.
  destruct (ensure_dir_run now (UPLOAD_DIR cfg) w) as (w1 & H1 & Hd1 & Hk1 & Hf1).
  { intros q Hq. apply Hnf, elem_of_app. by left. }
  destruct (ensure_dir_run now (OUTPUT_DIR cfg) w1) as (w2 & H2 & Hd2 & Hk2 & Hf2).
  { intros q Hq Hf. apply (Hnf q); [apply elem_of_app; by right|by apply Hf1]. }
  assert (Fs.is_dir (w_fs w2) (UPLOAD_DIR cfg)) as Hd1'.
  { destruct Hd1 as (n & Hn & Hk). exists n. split; [by apply Hk2|done]. }
  assert (∀ d, Fs.is_dir (w_fs w2) d →
            (existsSync d ≫= λ ex, when (negb ex) (mkdirSync_p now d)) w2
            = (Ok tt, w2)) as Hagain.
  { intros d (n & Hn & _). unfold mbind, M_bind. rewrite existsSync_run.
    by rewrite bool_decide_true by done. }
  exists w2. split; [|split; [done|split; [done|split]]].
  - unfold ensure_dirs. simpl forEach.
    unfold mbind at 1, M_bind at 1. rewrite H1.
    unfold mbind at 1, M_bind at 1. by rewrite H2.
  - intros q n Hq. by apply Hk2, Hk1.
  - unfold ensure_dirs. simpl forEach.
    unfold mbind at 1, M_bind at 1. rewrite Hagain by done.
    unfold mbind at 1, M_bind at 1. by rewrite Hagain by done.
Qed.

(** ** The cross-origin check *)

Lemma split_items (sep : ascii) (s item : string) :
  item ∈ Cors.split sep s → ¬ Str.mem sep item.
Proof.
  unfold Str.mem. revert item. induction s as [|c s IH]; intros item; simpl.
  - intros ->%list_elem_of_singleton. simpl. apply not_elem_of_nil.
  - destruct (Ascii.eqb_spec c sep) as [->|Hc].
    + intros [->|Hin]%elem_of_cons; [simpl; apply not_elem_of_nil|by apply IH].
    + destruct (Cors.split sep s) as [|item0 items] eqn:Hs.
      * intros ->%list_elem_of_singleton. simpl.
        rewrite not_elem_of_cons. split; [done|apply not_elem_of_nil].
      * intros [->|Hin]%elem_of_cons.
        -- simpl. rewrite not_elem_of_cons. split; [done|]. apply IH. by left.
        -- apply IH. by right.
Qed.

Lemma split_plain (sep : ascii) (s : string) :
  ¬ Str.mem sep s → Cors.split sep s = [s].
Proof.
  unfold Str.mem. induction s as [|c s IH]; [done|]. simpl.
  rewrite not_elem_of_cons. intros [Hc Hs].
  destruct (Ascii.eqb_spec c sep) as [->|_]; [done|].
  by rewrite IH.
Qed.

(** X16: an [Origin] header that contains a comma is never allowed,
    whatever [ALLOWED_ORIGINS] and the domain are: the request is answered
    by the error-handling middleware with status 500 and
    ['Not allowed by CORS']. *)
Theorem cors_comma (env : option string) (cfg : Config) (origin : string) :
  Str.mem "," origin →
  Cors.check env cfg (Some origin)
  = Some (mkResponse 500 "application/json"
            (Json (JObj [("success", JBool false);
                         ("error", JStr "Not allowed by CORS")]))).
Proof.
  intros Hc. unfold Cors.check.
  assert (Str.truthy (Some origin) = true) as ->.
  { simpl. rewrite bool_decide_false; [done|]. intros ->.
    unfold Str.mem in Hc. simpl in Hc. by apply elem_of_nil in Hc. }
  rewrite bool_decide_false; [done|].
  simpl. unfold Cors.allowedOrigins. by intros H%split_items.
Qed.

(** X17: with [ALLOWED_ORIGINS] unset or empty and a domain without a
    comma, a request passes the cross-origin check exactly when it has no
    [Origin] header (or an empty one) or its [Origin] is the domain,
    character for character. *)
Theorem cors_default (env : option string) (cfg : Config) (origin : option string) :
  Str.truthy env = false → ¬ Str.mem "," (DOMAIN cfg) →
  Cors.check env cfg origin = None
  ↔ Str.truthy origin = false ∨ origin = Some (DOMAIN cfg).
Proof.
  intros Henv Hd. unfold Cors.check, Cors.allowedOrigins.
  rewrite Henv, split_plain by done.
  destruct (Str.truthy origin) eqn:Ho; simpl.
  - destruct origin as [o|]; [|done]. simpl.
    case_bool_decide as Hin.
    + apply list_elem_of_singleton in Hin as ->. naive_solver.
    + split; [done|]. intros [?|[= ->]]; [done|].
      destruct Hin. by apply list_elem_of_singleton.
  - naive_solver.
Qed.

(** ** Deleting, then listing *)

Section DeleteThenList.

Context (cfg : Config).

Lemma entry_info_name (fs : FS) (file : string) : name (entry_info cfg fs file) = file.
Proof. done. Qed.

Lemma entry_info_inj (fs : FS) : Inj (=) (=) (entry_info cfg fs).
Proof. intros a b H. by apply (f_equal name) in H. Qed.

(** X18: deleting an artifact takes exactly its record out of the listing:
    the listing after the delete holds the records of the listing before it
    whose name is not the deleted one, unchanged. *)
Theorem delete_then_listing (file : string) (w : World) :
  Path.component file →
  Fs.is_file (w_fs w) (OUTPUT_DIR cfg ++ [file]) →
  Fs.wf (w_fs w) → Fs.is_dir (w_fs w) (OUTPUT_DIR cfg) →
  let w' := (delete_file cfg file w).2 in
  ∃ before after,
    listing cfg w = (Ok before, w)
    ∧ listing cfg w' = (Ok after, w')
    ∧ after ≡ₚ filter (λ f, name f ≠ file) before.
Proof.
  intros Hc (n0 & Hn0 & Hk0) Hwf Hdir.
  rewrite delete_file_run, join_component, Hn0 by done.
  destruct n0 as [[|] sz bt]; [|done]. simpl.
  set (k := OUTPUT_DIR cfg ++ [file]) in *.
  set (w' := mkWorld (delete k (w_fs w)) (w_uuid w) (w_execs w)).
  assert (k ≠ OUTPUT_DIR cfg) as Hk.
  { intros H. apply (f_equal length) in H. subst k.
    rewrite length_app in H. simpl in H. lia. }
  assert (Fs.wf (w_fs w')) as Hwf'.
  { intros p [x Hp]. apply Hwf. simpl in Hp.
    apply lookup_delete_Some in Hp as [_ Hp]. by eexists. }
  assert (Fs.is_dir (w_fs w') (OUTPUT_DIR cfg)) as Hdir'.
  { destruct Hdir as (n & Hn & Hkd). exists n. split; [|done].
    simpl. by rewrite lookup_delete_ne. }
  do 2 eexists. split; [by apply listing_run|].
  split; [by apply listing_run|].
  rewrite !sort_perm. simpl w_fs.
  apply NoDup_Permutation.
  - apply (NoDup_fmap_2 _ (Inj0 := entry_info_inj _)).
    apply NoDup_filter, NoDup_children.
  - apply NoDup_filter.
    apply (NoDup_fmap_2 _ (Inj0 := entry_info_inj _)).
    apply NoDup_filter, NoDup_children.
  - intros x. rewrite list_elem_of_filter, !list_elem_of_fmap. split.
    + intros (n & -> & [Hext Hin]%list_elem_of_filter).
      apply elem_of_children in Hin.
      assert (n ≠ file) as Hne.
      { intros ->. fold k in Hin. rewrite lookup_delete_eq in Hin.
        by destruct Hin. }
      assert (OUTPUT_DIR cfg ++ [n] ≠ k) as Hpath.
      { subst k. intros H%app_inv_head. congruence. }
      rewrite lookup_delete_ne in Hin by done.
      split; [done|]. exists n. split.
      * unfold entry_info. by rewrite lookup_delete_ne.
      * apply list_elem_of_filter. split; [done|]. by apply elem_of_children.
    + intros [Hne (n & -> & [Hext Hin]%list_elem_of_filter)].
      rewrite entry_info_name in Hne.
      assert (OUTPUT_DIR cfg ++ [n] ≠ k) as Hpath.
      { subst k. intros H%app_inv_head. congruence. }
      apply elem_of_children in Hin.
      exists n. split.
      * unfold entry_info. by rewrite lookup_delete_ne.
      * apply list_elem_of_filter. split; [done|].
        apply elem_of_children. by rewrite lookup_delete_ne.
Qed.

End DeleteThenList.

(** ** The further properties on the sample deployment *)

Lemma list_files_without_directory_witness :
  (list_files Sample.cfg (mkWorld ∅ 0 [])).1
  = Ok (mkResponse 500 "application/json"
          (Json (JObj [
             ("success", JBool false);
             ("error", JStr "ENOENT: no such file or directory, scandir '/app/output'")]))).
Proof.
  refine (list_files_without_directory Sample.cfg (mkWorld ∅ 0 []) _).
  by_evaluation.
Defined.

Lemma delete_file_frame_witness :
  let w' := (delete_file Sample.cfg "old.ipa" Sample.published).2 in
  w_fs w' !! ["app"; "output"; "new.ipa"]
  = w_fs Sample.published !! ["app"; "output"; "new.ipa"]
  ∧ w_uuid w' = w_uuid Sample.published ∧ w_execs w' = w_execs Sample.published.
Proof.
  refine (delete_file_frame Sample.cfg "old.ipa" Sample.published
            ["app"; "output"; "new.ipa"] _).
  by_evaluation.
Defined.


Lemma delete_file_twice_witness :
  (delete_file Sample.cfg "old.ipa"
     (delete_file Sample.cfg "old.ipa" Sample.published).2).1
  = Ok (mkResponse 404 "application/json"
          (Json (JObj [("success", JBool false); ("error", JStr "File not found")]))).
Proof.
  refine (delete_file_twice Sample.cfg "old.ipa" Sample.published _).
  vm_compute. reflexivity.
Defined.

Lemma fileFilter_accepts_witness :
  fileFilter "MyApp.IPA" Sample.world = (Ok tt, Sample.world).
Proof.
  refine (fileFilter_accepts Sample.world "MyApp" "IPA" _ _ _).
  - done.
  - by_evaluation.
  - by_evaluation.
Defined.

Lemma fileFilter_rejects_witness :
  fileFilter ".ipa" Sample.world
  = (Throw "Invalid file type. Allowed: .ipa, .p12, .mobileprovision", Sample.world).
Proof.
  refine (fileFilter_rejects Sample.world ".ipa" _).
  right. exists "ipa". split; [reflexivity|]. split; by_evaluation.
Defined.

Lemma upload_intake_witness :
  ∃ req w',
    upload Sample.cfg Sample.uuid Sample.now Sample.parts Sample.world = (Ok req, w')
    ∧ intake_ok req (w_fs w') ∧ w_execs w' = w_execs Sample.world.
Proof.
  destruct (upload Sample.cfg Sample.uuid Sample.now Sample.parts Sample.world)
    as [[req|message] w'] eqn:E.
  - exists req, w'. split; [reflexivity|].
    exact (upload_intake Sample.cfg Sample.uuid Sample.now Sample.parts
             Sample.world w' req E).
  - vm_compute in E. discriminate E.
Defined.



Lemma sign_removes_inputs_witness :
  let disk := w_fs (sign Sample.cfg Sample.uuid Sample.now Sample.tool_fails
                      Sample.request Sample.uploaded).2 in
  (∀ p, p ∈ inputs Sample.ipaFile Sample.certFile Sample.provisionFile →
        disk !! p = None)
  ∧ disk !! Path.dirname (file_path Sample.ipaFile) = None.
Proof.
  exact (sign_removes_inputs Sample.cfg Sample.uuid Sample.now Sample.tool_fails
           Sample.request Sample.ipaFile Sample.certFile Sample.provisionFile
           Sample.uploaded _ _ sample_uploads eq_refl sample_no_directory).
Defined.


Lemma ensure_dirs_creates_witness :
  ∃ w', ensure_dirs Sample.cfg Sample.now (mkWorld ∅ 0 []) = (Ok tt, w')
    ∧ Fs.is_dir (w_fs w') (UPLOAD_DIR Sample.cfg)
    ∧ Fs.is_dir (w_fs w') (OUTPUT_DIR Sample.cfg)
    ∧ (∀ q n, (∅ : FS) !! q = Some n → w_fs w' !! q = Some n)
    ∧ ensure_dirs Sample.cfg Sample.now w' = (Ok tt, w').
Proof.
  refine (ensure_dirs_creates Sample.cfg Sample.now (mkWorld ∅ 0 []) _).
  apply Forall_forall. by_evaluation.
Defined.

Lemma cors_comma_witness :
  Cors.check (Some "http://a.example,http://b.example") Sample.cfg
    (Some "http://a.example,http://b.example")
  = Some (mkResponse 500 "application/json"
            (Json (JObj [("success", JBool false);
                         ("error", JStr "Not allowed by CORS")]))).
Proof.
  refine (cors_comma _ Sample.cfg "http://a.example,http://b.example" _).
  by_evaluation.
Defined.

Lemma cors_default_witness :
  Cors.check None Sample.cfg (Some "http://localhost:3000") = None
  ↔ Str.truthy (Some "http://localhost:3000") = false
    ∨ Some "http://localhost:3000" = Some (DOMAIN Sample.cfg).
Proof.
  refine (cors_default None Sample.cfg (Some "http://localhost:3000") eq_refl _).
  by_evaluation.
Defined.

Lemma delete_then_listing_witness :
  let w' := (delete_file Sample.cfg "old.ipa" Sample.published).2 in
  ∃ before after,
    listing Sample.cfg Sample.published = (Ok before, Sample.published)
    ∧ listing Sample.cfg w' = (Ok after, w')
    ∧ after ≡ₚ filter (λ f, name f ≠ "old.ipa") before.
Proof.
  refine (delete_then_listing Sample.cfg "old.ipa" Sample.published _ _
            sample_published_wf _); by_evaluation.
Defined.
